(** * dialogflow-fulfillment: the WebhookClient core

    A shallow embedding of [src/dialogflow-fulfillment.js] (class
    [WebhookClient]) and the properties of its response accumulator,
    context store, dispatch engine and request normalizer.

    Conventions.
    - A JavaScript value the code inspects with [typeof], truthiness or a
      property read is a [jsval].
    - A method of [WebhookClient] is a function of the receiver [this] that
      returns a [completion]: the updated receiver, or the exception thrown.
    - The response elements, the platform constants and the two version
      adapters live in modules that are not part of the file above
      ([./response-builder], [./v1-agent], [./v2-agent]); the constants and
      the adapters are parameters of the development. *)

From Stdlib Require Import ZArith String Ascii List Bool Lia.
From stdpp Require Import base option list gmap strings.

Set Warnings "-register-all".

Local Open Scope string_scope.
Local Open Scope list_scope.
Local Open Scope Z_scope.

(** ** JavaScript values *)

Inductive jsval : Type :=
| JUndefined
| JNull
| JBool (b : bool)
| JNum (n : Z)
| JStr (s : string)
| JObj (props : list (string * jsval)).

(** [!!v] in JavaScript: [undefined], [null], [false], [0] and [''] are
    falsy, every object is truthy. *)
Definition truthy (v : jsval) : bool :=
  match v with
  | JUndefined | JNull => false
  | JBool b => b
  | JNum n => negb (n =? 0)
  | JStr s => negb (String.eqb s "")
  | JObj _ => true
  end.

(** [typeof v === 'string'] *)
Definition is_string (v : jsval) : bool :=
  match v with JStr _ => true | _ => false end.

(** [v === s] where [s] is a string: strict equality never converts. *)
Definition strict_eq_str (v : jsval) (s : string) : bool :=
  match v with JStr t => String.eqb t s | _ => false end.

(** ** Exceptions *)

Inductive error : Type :=
| Error (message : string)   (* [throw new Error(message)] *)
| TypeError.                 (* raised by the language itself *)

Inductive completion (A : Type) : Type :=
| Normal (a : A)
| Throw (e : error).
Arguments Normal {A} a.
Arguments Throw {A} e.

Definition bind {A B} (c : completion A) (k : A -> completion B) : completion B :=
  match c with
  | Normal a => k a
  | Throw e => Throw e
  end.

Declare Scope js_scope.
Delimit Scope js_scope with js.
Notation "x <- c ;; k" := (bind c (fun x => k))
  (at level 100, c at next level, right associativity) : js_scope.
Local Open Scope js_scope.

Fixpoint lookup_prop (key : string) (props : list (string * jsval)) : jsval :=
  match props with
  | [] => JUndefined
  | (k, v) :: rest => if String.eqb k key then v else lookup_prop key rest
  end.

(** [v.key] for the property names the code reads ([name], [result],
    [queryResult], [isArray]): reading a property of [undefined] or [null]
    throws, a primitive has no such property, an object is looked up. *)
Definition get_prop (v : jsval) (key : string) : completion jsval :=
  match v with
  | JUndefined | JNull => Throw TypeError
  | JObj props => Normal (lookup_prop key props)
  | _ => Normal JUndefined
  end.

(** ** Strings *)

(** [s.slice(start)]: a negative [start] counts from the end, and both ends
    are clamped to the string. *)
Definition slice (s : string) (start : Z) : string :=
  let len := Z.of_nat (String.length s) in
  let from := if start <? 0 then Z.max (len + start) 0 else Z.min start len in
  substring (Z.to_nat from) (Z.to_nat (len - from)) s.

(** [name] ends with [s]: the characters of [s] are a suffix of those of
    [name]. *)
Definition ends_with (name s : string) : Prop :=
  list_ascii_of_string s `suffix_of` list_ascii_of_string name.

#[global] Instance ends_with_dec name s : Decision (ends_with name s).
Proof. unfold ends_with. apply _. Defined.

(** ** Response elements *)

(** Modelled from the spec: the classes of [./response-builder], which is
    not part of the file. A response element is one of five variants;
    [Suggestions] and [Payload] carry a platform tag ([None] when the tag is
    [undefined]). The entries of a reply list are JavaScript values, so that
    [replies[0]] of an empty list is [undefined]. *)
Inductive RichResponse : Type :=
| TextResponse (text : string)
| CardResponse (title : string) (subtitle imageUrl buttons : jsval)
| ImageResponse (imageUrl : string)
| SuggestionsResponse (platform : option string) (replies : list jsval)
| PayloadResponse (platform : option string) (payload : jsval).

(** [response instanceof TextResponse] and its siblings. *)
Definition instanceof_TextResponse (r : RichResponse) : bool :=
  match r with TextResponse _ => true | _ => false end.
Definition instanceof_SuggestionsResponse (r : RichResponse) : bool :=
  match r with SuggestionsResponse _ _ => true | _ => false end.
Definition instanceof_PayloadResponse (r : RichResponse) : bool :=
  match r with PayloadResponse _ _ => true | _ => false end.

(** [response.platform]; the variants without a tag read [undefined]. *)
Definition platform_of (r : RichResponse) : option string :=
  match r with
  | SuggestionsResponse p _ | PayloadResponse p _ => p
  | _ => None
  end.

(** [response.replies[0]] *)
Definition first_reply (replies : list jsval) : jsval := nth 0 replies JUndefined.

(** Modelled from the spec: [SuggestionsResponse.addReply_] of
    [./response-builder]; the reply is appended to the element's reply list. *)
Definition addReply_ (reply : jsval) (r : RichResponse) : RichResponse :=
  match r with
  | SuggestionsResponse p replies => SuggestionsResponse p (replies ++ [reply])
  | _ => r
  end.

(** What [add] and [send_] may be handed: a plain value (a string,
    [undefined], ...), an instance of [RichResponse], or an array together
    with the value of its [isArray] property. An array built by a literal or
    by [Array] has no such property: it reads [undefined]. *)
Inductive response_arg : Type :=
| Val (v : jsval)
| Rich (r : RichResponse)
| Arr (items : list response_arg) (isArray : jsval).

(** ** The host handles and the client *)

Record HostRequest : Type := { body : jsval }.

(** Modelled from the spec: the outbound-response handle of the host (an
    Express response); [status(v)] records [v] as the status of the response
    and returns the handle. *)
Record HostResponse : Type := { statusCode : jsval }.

Definition status (v : jsval) (res : HostResponse) : HostResponse :=
  {| statusCode := v |}.

Record Options : Type := {
  request : option HostRequest;
  response : option HostResponse }.

Inductive AgentId : Type := V1 | V2.

Record WebhookClient : Type := {
  request_ : HostRequest;
  response_ : HostResponse;
  agentVersion : Z;
  responseMessages_ : list RichResponse;
  followupEvent_ : jsval;
  outgoingContexts_ : list jsval;
  action : option string;         (* [None] is [null] *)
  parameters : jsval;
  contexts : list jsval;
  requestSource : jsval;
  query : jsval;
  locale : jsval;
  session : jsval;
  client : AgentId }.

Definition set_responseMessages_ (l : list RichResponse) (this : WebhookClient) :=
  {| request_ := request_ this; response_ := response_ this;
     agentVersion := agentVersion this; responseMessages_ := l;
     followupEvent_ := followupEvent_ this;
     outgoingContexts_ := outgoingContexts_ this; action := action this;
     parameters := parameters this; contexts := contexts this;
     requestSource := requestSource this; query := query this;
     locale := locale this; session := session this; client := client this |}.

Definition set_outgoingContexts_ (l : list jsval) (this : WebhookClient) :=
  {| request_ := request_ this; response_ := response_ this;
     agentVersion := agentVersion this;
     responseMessages_ := responseMessages_ this;
     followupEvent_ := followupEvent_ this;
     outgoingContexts_ := l; action := action this;
     parameters := parameters this; contexts := contexts this;
     requestSource := requestSource this; query := query this;
     locale := locale this; session := session this; client := client this |}.

Definition set_followupEvent_ (e : jsval) (this : WebhookClient) :=
  {| request_ := request_ this; response_ := response_ this;
     agentVersion := agentVersion this;
     responseMessages_ := responseMessages_ this;
     followupEvent_ := e;
     outgoingContexts_ := outgoingContexts_ this; action := action this;
     parameters := parameters this; contexts := contexts this;
     requestSource := requestSource this; query := query this;
     locale := locale this; session := session this; client := client this |}.

Definition set_response_ (res : HostResponse) (this : WebhookClient) :=
  {| request_ := request_ this; response_ := res;
     agentVersion := agentVersion this;
     responseMessages_ := responseMessages_ this;
     followupEvent_ := followupEvent_ this;
     outgoingContexts_ := outgoingContexts_ this; action := action this;
     parameters := parameters this; contexts := contexts this;
     requestSource := requestSource this; query := query this;
     locale := locale this; session := session this; client := client this |}.

(** The fields of the request model that [processRequest_] fills in. *)
Record RequestFields : Type := {
  rf_action : option string;
  rf_parameters : jsval;
  rf_contexts : list jsval;
  rf_requestSource : jsval;
  rf_query : jsval;
  rf_locale : jsval;
  rf_session : jsval }.

(** Modelled from the spec: the contract of a version adapter ([V1Agent],
    [V2Agent]), whose two implementations are not part of the file.
    [processRequest_] populates the request model from the raw payload;
    the other three operations act on the client they are bound to and may
    throw. *)
Record Agent : Type := {
  processRequest_ : HostRequest -> RequestFields;
  addContext_ : jsval -> WebhookClient -> completion WebhookClient;
  setFollowupEvent_ : jsval -> WebhookClient -> completion WebhookClient;
  sendResponse_ : WebhookClient -> completion WebhookClient }.

(** Modelled from the spec: the constants [PLATFORMS.UNSPECIFIED] and
    [PLATFORMS.ACTIONS_ON_GOOGLE] of [./response-builder]. *)
Record Platforms : Type := {
  UNSPECIFIED : string;
  ACTIONS_ON_GOOGLE : string }.

Definition RESPONSE_CODE_BAD_REQUEST : Z := 400.

(** What a handler given to [handleRequest] does when it is called with the
    client: it throws, or it returns, either a plain value or a promise that
    settles later; [this'] is the client as the handler has left it by
    then. *)
Inductive promise : Type :=
| Resolved
| Rejected (e : error).

Inductive handler_result : Type :=
| Throws (e : error)
| Returns (this' : WebhookClient)
| ReturnsPromise (p : promise) (this' : WebhookClient).

Definition requestCallback : Type := WebhookClient -> handler_result.

(** The argument of [handleRequest]: a function, a [Map] from action names
    ([None] is the key [null]) to functions, or anything else. *)
Inductive handler_arg : Type :=
| HFunction (f : requestCallback)
| HMap (m : gmap (option string) requestCallback)
| HOther (v : jsval).

(** [array.filter(f)] for a callback that may throw. *)
Fixpoint filterM {A} (f : A -> completion bool) (l : list A) : completion (list A) :=
  match l with
  | [] => Normal []
  | x :: rest =>
      keep <- f x ;;
      kept <- filterM f rest ;;
      Normal (if keep : bool then x :: kept else kept)
  end.

(** [array.forEach(f)] for a callback that updates the receiver and may
    throw. *)
Fixpoint forEach {A S} (f : S -> A -> completion S) (l : list A) (this : S) : completion S :=
  match l with
  | [] => Normal this
  | x :: rest => this' <- f this x ;; forEach f rest this'
  end.

(** [!platform] for a platform tag. *)
Definition no_platform (platform : option string) : bool :=
  match platform with
  | None => true
  | Some s => String.eqb s ""
  end.

(** [p === q] for two platform tags. *)
Definition platform_eqb (p q : option string) : bool :=
  match p, q with
  | None, None => true
  | Some s, Some t => String.eqb s t
  | _, _ => false
  end.

(** ** A reference instantiation

    Concrete platform constants and an adapter that stores what it is given,
    on which the methods can be run. *)

Definition sample_platforms : Platforms :=
  {| UNSPECIFIED := "PLATFORM_UNSPECIFIED";
     ACTIONS_ON_GOOGLE := "ACTIONS_ON_GOOGLE" |}.

Definition sample_supported : list string :=
  ["FACEBOOK"; "SLACK"; "TELEGRAM"; "KIK"; "SKYPE"; "LINE"; "VIBER";
   "ACTIONS_ON_GOOGLE"].

Definition no_fields : RequestFields :=
  {| rf_action := None; rf_parameters := JNull; rf_contexts := [];
     rf_requestSource := JNull; rf_query := JNull; rf_locale := JNull;
     rf_session := JNull |}.

(** Modelled from the spec: an adapter in the manner of the v1 adapter, which
    stores a context as it is given; it records the followup event it is
    handed and leaves the client as it is when it sends. *)
Definition storing_agent : Agent :=
  {| processRequest_ := fun _ => no_fields;
     addContext_ := fun context this =>
       Normal (set_outgoingContexts_ (outgoingContexts_ this ++ [context]) this);
     setFollowupEvent_ := fun event this => Normal (set_followupEvent_ event this);
     sendResponse_ := fun this => Normal this |}.

(** A client as the constructor leaves it, for the given version, platform
    of origin and action. *)
Definition fresh_client (version : Z) (source : jsval) (act : option string) : WebhookClient :=
  {| request_ := {| body := JObj [] |};
     response_ := {| statusCode := JUndefined |};
     agentVersion := version;
     responseMessages_ := [];
     followupEvent_ := JNull;
     outgoingContexts_ := [];
     action := act;
     parameters := JNull;
     contexts := [];
     requestSource := source;
     query := JNull;
     locale := JNull;
     session := JNull;
     client := if version =? 2 then V2 else V1 |}.

(** A well-formed context, and the object that carries it. *)
Record DialogflowContext : Type := {
  name : string;
  lifespan : jsval;
  ctx_parameters : jsval }.

Definition context_object (c : DialogflowContext) : jsval :=
  JObj [("name", JStr (name c)); ("lifespan", lifespan c);
        ("parameters", ctx_parameters c)].

(** A payload has a top-level field of the given name. *)
Definition has_field (key : string) (payload : jsval) : Prop :=
  match payload with
  | JObj props => In key (map fst props)
  | _ => False
  end.

(** Inputs for the examples. *)
Definition slack_then_two_replies : list response_arg :=
  [Rich (SuggestionsResponse (Some "SLACK") [JStr "yes"]);
   Rich (SuggestionsResponse (Some "SLACK") [JStr "no"; JStr "maybe"])].

Definition slack_one_reply_each : list response_arg :=
  [Rich (SuggestionsResponse (Some "SLACK") [JStr "yes"]);
   Val (JStr "Shall I go on?");
   Rich (SuggestionsResponse (Some "SLACK") [JStr "no"])].

Definition sample_contexts : list DialogflowContext :=
  [ {| name := "projects/p/agent/sessions/s/contexts/foo";
       lifespan := JNum 2; ctx_parameters := JObj [] |};
    {| name := "foobar"; lifespan := JNum 1; ctx_parameters := JObj [] |};
    {| name := "foo"; lifespan := JNum 5; ctx_parameters := JObj [] |} ].

Definition handles (payload : jsval) : Options :=
  {| request := Some {| body := payload |};
     response := Some {| statusCode := JUndefined |} |}.

Definition v1_payload : jsval := JObj [("result", JObj [("action", JStr "order")])].
Definition v2_payload : jsval := JObj [("queryResult", JObj [("action", JStr "order")])].
Definition both_payload : jsval :=
  JObj [("result", JObj [("action", JStr "order")]);
        ("queryResult", JObj [("action", JStr "order")])].
Definition null_result_payload : jsval :=
  JObj [("result", JNull); ("queryResult", JObj [("action", JStr "order")])].

(** Modelled from the spec: an adapter in the manner of the v2 adapter, which
    stores a context given by its bare name under the path of the session
    followed by the name. *)
Definition session_path : string := "projects/p/agent/sessions/s/contexts/".

Definition qualifying_agent : Agent :=
  {| processRequest_ := fun _ => no_fields;
     addContext_ := fun context this =>
       match get_prop context "name" with
       | Normal (JStr s) =>
           Normal (set_outgoingContexts_
                     (outgoingContexts_ this
                      ++ [JObj [("name", JStr (String.append session_path s))]])
                     this)
       | _ => Throw TypeError
       end;
     setFollowupEvent_ := fun event this => Normal (set_followupEvent_ event this);
     sendResponse_ := fun this => Normal this |}.

(** More inputs for the examples. *)
Definition mixed_calls : list response_arg :=
  [Val (JStr "Hello");
   Rich (PayloadResponse (Some "SLACK") (JObj [("text", JStr "first")]));
   Rich (SuggestionsResponse (Some "SLACK") [JStr "yes"]);
   Val (JNum 7);
   Rich (PayloadResponse (Some "SLACK") (JObj [("text", JStr "second")]));
   Rich (SuggestionsResponse (Some "SLACK") [JStr "no"]);
   Rich (ImageResponse "https://example.com/cat.png")].

Definition unspecified_suggestions : list RichResponse :=
  [TextResponse "Hello";
   SuggestionsResponse (Some "SLACK") [JStr "yes"];
   SuggestionsResponse (Some "") [JStr "maybe"];
   PayloadResponse None (JObj [])].

Definition client_with_input_contexts : WebhookClient :=
  {| request_ := {| body := JObj [] |};
     response_ := {| statusCode := JUndefined |};
     agentVersion := 2;
     responseMessages_ := [];
     followupEvent_ := JNull;
     outgoingContexts_ := [];
     action := None;
     parameters := JNull;
     contexts := map context_object sample_contexts;
     requestSource := JNull;
     query := JNull;
     locale := JNull;
     session := JNull;
     client := V2 |}.

Definition throwing_handler : requestCallback := fun _ => Throws (Error "boom").
Definition rejecting_handler : requestCallback :=
  fun this => ReturnsPromise (Rejected (Error "boom"))
                (set_responseMessages_ [TextResponse "Hello"] this).
Definition greeting_handler : requestCallback :=
  fun this => Returns (set_responseMessages_ [TextResponse "Hello"] this).

(** A map with one handler, under the action [order]. *)
Definition order_map (f : requestCallback) : gmap (option string) requestCallback :=
  {[ Some "order" := f ]}.

(** ** The class [WebhookClient] *)

Section WebhookClient.

Variable PLATFORMS : Platforms.
Variable SUPPORTED_RICH_MESSAGE_PLATFORMS : list string.
Variables V1Agent V2Agent : Agent.

(** [this.client]: the adapter the constructor has chosen. *)
Definition agent_of (c : AgentId) : Agent :=
  match c with
  | V1 => V1Agent
  | V2 => V2Agent
  end.

(** [!p || p === PLATFORMS.UNSPECIFIED] *)
Definition unspecified (p : option string) : bool :=
  no_platform p || platform_eqb p (Some (UNSPECIFIED PLATFORMS)).

(** The test of the two lookup loops on one element: both tags are
    unspecified, or the tags are strictly equal. *)
Definition platform_matches (platform : option string) (response : RichResponse) : bool :=
  (unspecified (platform_of response) && unspecified platform)
  || platform_eqb platform (platform_of response).

(** [existingSuggestion_(platform)]: the first [SuggestionsResponse] of the
    accumulated messages that matches, as its position in
    [responseMessages_] (the reference the caller mutates through) and the
    element; [None] is [undefined]. *)
Definition existingSuggestion_ (this : WebhookClient) (platform : option string)
  : option (nat * RichResponse) :=
  list_find
    (fun response =>
       instanceof_SuggestionsResponse response && platform_matches platform response = true)
    (responseMessages_ this).

(** [existingPayload_(platform)] *)
Definition existingPayload_ (this : WebhookClient) (platform : option string)
  : option (nat * RichResponse) :=
  list_find
    (fun response =>
       instanceof_PayloadResponse response && platform_matches platform response = true)
    (responseMessages_ this).

(** [add(response)]. An element is a value here, and the accumulator holds
    the elements themselves: the object an argument of [add] refers to is
    taken not to be in the accumulator already. *)
Definition add (this : WebhookClient) (response : response_arg) : completion WebhookClient :=
  let response :=
    match response with
    | Val (JStr s) => Rich (TextResponse s)
    | _ => response
    end in
  match response with
  | Rich (SuggestionsResponse platform replies as r) =>
      match existingSuggestion_ this platform with
      | Some (i, _) =>
          Normal (set_responseMessages_
                    (alter (addReply_ (first_reply replies)) i (responseMessages_ this))
                    this)
      | None =>
          Normal (set_responseMessages_ (responseMessages_ this ++ [r]) this)
      end
  | Rich r =>
      Normal (set_responseMessages_ (responseMessages_ this ++ [r]) this)
  | _ => Throw (Error "unknown response type")
  end.

(** [SUPPORTED_RICH_MESSAGE_PLATFORMS.indexOf(v) < 0] *)
Definition not_supported (v : jsval) : bool :=
  negb (existsb (strict_eq_str v) SUPPORTED_RICH_MESSAGE_PLATFORMS).

(** [!response] for the argument of [send_]. *)
Definition no_response (response : response_arg) : bool :=
  match response with
  | Val v => negb (truthy v)
  | _ => false
  end.

(** [send_(response)] *)
Definition send_ (this : WebhookClient) (response : response_arg) : completion WebhookClient :=
  if not_supported (requestSource this)
     && negb (match requestSource this with JUndefined => true | _ => false end)
     && negb (match requestSource this with JNull => true | _ => false end)
     && negb (strict_eq_str (requestSource this) (UNSPECIFIED PLATFORMS))
  then Throw (Error "Platform is not supported.")
  else
    let this :=
      if strict_eq_str (requestSource this) (ACTIONS_ON_GOOGLE PLATFORMS)
         && match responseMessages_ this with
            | first :: _ => negb (instanceof_TextResponse first)
            | [] => false
            end
         && negb (bool_decide (is_Some (existingPayload_ this (Some (ACTIONS_ON_GOOGLE PLATFORMS)))))
      then set_responseMessages_ (TextResponse " " :: responseMessages_ this) this
      else this in
    if no_response response then sendResponse_ (agent_of (client this)) this
    else
      this <- match response with
              | Val (JStr _) | Rich _ => add this response
              | Arr items isArray =>
                  if truthy isArray then forEach add items this else Normal this
              | Val v =>
                  isArray <- get_prop v "isArray" ;;
                  (* a plain object has no [forEach] to call *)
                  if truthy isArray then Throw TypeError else Normal this
              end ;;
      sendResponse_ (agent_of (client this)) this.

(** [promise.then(() => this.send_())]: the promise returned and the client
    once it has settled; when [send_] throws, the client is reported as
    [send_] found it. *)
Definition then_send (p : promise) (this : WebhookClient) : promise * WebhookClient :=
  match p with
  | Resolved =>
      match send_ this (Val JUndefined) with
      | Normal this' => (Resolved, this')
      | Throw e => (Rejected e, this)
      end
  | Rejected e => (Rejected e, this)
  end.

(** [let result = f(this); let promise = result instanceof Promise ? result
    : Promise.resolve(); return promise.then(() => this.send_());] *)
Definition call_handler (f : requestCallback) (this : WebhookClient)
  : completion (promise * WebhookClient) :=
  match f this with
  | Throws e => Throw e
  | Returns this' => Normal (then_send Resolved this')
  | ReturnsPromise p this' => Normal (then_send p this')
  end.

(** [handleRequest(handler)] *)
Definition handleRequest (this : WebhookClient) (handler : handler_arg)
  : completion (promise * WebhookClient) :=
  match handler with
  | HFunction f => call_handler f this
  | HOther _ =>
      Normal (Rejected (Error "handleRequest must contain a map of Dialogflow action names to function handlers"), this)
  | HMap m =>
      match m !! action this with
      | Some f => call_handler f this
      | None =>
          match m !! (None : option string) with
          | Some f => call_handler f this
          | None =>
              let response_ :=
                status (JStr "No handler for requested action")
                  (status (JNum RESPONSE_CODE_BAD_REQUEST) (response_ this)) in
              Normal (Rejected (Error "No handler for requested action"),
                      set_response_ response_ this)
          end
      end
  end.

(** [setContext(context)] *)
Definition setContext (this : WebhookClient) (context : jsval) : completion WebhookClient :=
  let context := if is_string context then JObj [("name", context)] else context in
  invalid <- (if truthy context
              then name <- get_prop context "name" ;; Normal (negb (truthy name))
              else Normal false) ;;
  if invalid : bool
  then Throw (Error "context must be provided and must have a name")
  else addContext_ (agent_of (client this)) context this.

(** [clearOutgoingContexts()] *)
Definition clearOutgoingContexts (this : WebhookClient) : WebhookClient :=
  set_outgoingContexts_ [] this.

(** [name.slice(start)] on whatever [ctx.name] holds: only a string has the
    method. *)
Definition call_slice (name : jsval) (start : Z) : completion string :=
  match name with
  | JStr s => Normal (slice s start)
  | _ => Throw TypeError
  end.

(** [clearContext(context)], for a [context] that is a string. *)
Definition clearContext (this : WebhookClient) (context : string) : completion WebhookClient :=
  if agentVersion this =? 1 then
    kept <- filterM
              (fun ctx =>
                 name <- get_prop ctx "name" ;;
                 Normal (negb (strict_eq_str name context)))
              (outgoingContexts_ this) ;;
    Normal (set_outgoingContexts_ kept this)
  else if agentVersion this =? 2 then
    kept <- filterM
              (fun ctx =>
                 name <- get_prop ctx "name" ;;
                 tail <- call_slice name (- Z.of_nat (String.length context)) ;;
                 Normal (negb (String.eqb tail context)))
              (outgoingContexts_ this) ;;
    Normal (set_outgoingContexts_ kept this)
  else Normal this.

(** [getContext(contextName)]: [JNull] when no input context has the name. *)
Definition getContext (this : WebhookClient) (contextName : string) : completion jsval :=
  found <- filterM
             (fun context =>
                name <- get_prop context "name" ;;
                Normal (strict_eq_str name contextName))
             (contexts this) ;;
  Normal (match found with
          | first :: _ => if truthy first then first else JNull
          | [] => JNull
          end).

(** [setFollowupEvent(event)] *)
Definition setFollowupEvent (this : WebhookClient) (event : jsval) : completion WebhookClient :=
  event <- (if is_string event then Normal (JObj [("name", event)])
            else
              name <- get_prop event "name" ;;
              if negb (is_string name) || negb (truthy name)
              then Throw (Error "Followup event must be a string or have a name string")
              else Normal event) ;;
  setFollowupEvent_ (agent_of (client this)) event this.

(** [new WebhookClient(options)]. The platform constants that the
    constructor copies onto the client are read off [PLATFORMS] here. *)
Definition constructor (options : Options) : completion WebhookClient :=
  match request options with
  | None => Throw (Error "Request can NOT be empty.")
  | Some request_ =>
      match response options with
      | None => Throw (Error "Response can NOT be empty.")
      | Some response_ =>
          result <- get_prop (body request_) "result" ;;
          agentVersion <-
            (if truthy result then Normal (Some 1)
             else
               queryResult <- get_prop (body request_) "queryResult" ;;
               Normal (if truthy queryResult then Some 2 else None)) ;;
          client <-
            match agentVersion with
            | Some 2 => Normal (2, V2)
            | Some 1 => Normal (1, V1)
            | _ =>
                Throw (Error "Invalid or unknown request type (not a Dialogflow v1 or v2 webhook request).")
            end ;;
          let fields := processRequest_ (agent_of (snd client)) request_ in
          Normal {| request_ := request_; response_ := response_;
                    agentVersion := fst client;
                    responseMessages_ := [];
                    followupEvent_ := JNull;
                    outgoingContexts_ := [];
                    action := rf_action fields;
                    parameters := rf_parameters fields;
                    contexts := rf_contexts fields;
                    requestSource := rf_requestSource fields;
                    query := rf_query fields;
                    locale := rf_locale fields;
                    session := rf_session fields;
                    client := snd client |}
      end
  end.

(** ** Sequences of calls and what they accumulate *)

(** The client after a sequence of [add] calls; a call that throws leaves the
    client as it was. *)
Definition add_all (this : WebhookClient) (calls : list response_arg) : WebhookClient :=
  fold_left
    (fun this response =>
       match add this response with
       | Normal this' => this'
       | Throw _ => this
       end)
    calls this.

(** The element a call of [add] contributes: a string contributes a
    [TextResponse], anything that is not an element contributes nothing. *)
Definition element_of (response : response_arg) : option RichResponse :=
  match response with
  | Val (JStr s) => Some (TextResponse s)
  | Rich r => Some r
  | _ => None
  end.

(** Two platform tags are the same for the lookups. *)
Definition same_tag (p q : option string) : bool :=
  (unspecified q && unspecified p) || platform_eqb p q.

(** The [Suggestions] elements of a sequence for a platform tag. *)
Definition suggestions_for (platform : option string) (l : list RichResponse)
  : list RichResponse :=
  filter
    (fun r => instanceof_SuggestionsResponse r && platform_matches platform r = true)
    l.

(** The [Suggestions] elements for a platform tag among the arguments of a
    sequence of calls, in call order. *)
Definition added_suggestions (platform : option string) (calls : list response_arg)
  : list RichResponse :=
  suggestions_for platform (omap element_of calls).

Definition replies_of (r : RichResponse) : list jsval :=
  match r with
  | SuggestionsResponse _ replies => replies
  | _ => []
  end.

(** The claimed reply list: all the added reply lists, one after the other. *)
Definition concatenated_replies (platform : option string) (calls : list response_arg)
  : list jsval :=
  concat (map replies_of (added_suggestions platform calls)).

(** The reply list the merge produces: the replies of the first element
    added, then the first reply of each later one. *)
Definition merged_replies (added : list RichResponse) : list jsval :=
  match added with
  | [] => []
  | first :: later => replies_of first ++ map (fun r => first_reply (replies_of r)) later
  end.

(** The test of the [existingSuggestion_] loop on one element. *)
Definition sugg_test (platform : option string) (r : RichResponse) : bool :=
  instanceof_SuggestionsResponse r && platform_matches platform r.

(** The accumulator holds at most one [Suggestions] element for each
    platform tag. *)
Definition at_most_one (l : list RichResponse) : Prop :=
  forall p, (length (suggestions_for p l) <= 1)%nat.

(** What one more [Suggestions] element [r] for a tag does to the elements
    found for that tag: it is pushed when there is none, and otherwise its
    first reply is handed to the one that is there. *)
Definition merge_step (found : list RichResponse) (r : RichResponse) : list RichResponse :=
  match found with
  | [] => [r]
  | e :: _ => [addReply_ (first_reply (replies_of r)) e]
  end.

(** Modelled from the spec: what [setFollowupEvent_] of a version adapter
    does, whose code is not part of the file. The adapter wraps the event in
    the envelope of its wire format, which keeps the name of the event, and
    stores it as the followup event of the client, over any earlier one. *)
Definition records_followup_event (agent : Agent) : Prop :=
  forall (event : jsval) (this : WebhookClient),
  exists envelope,
    setFollowupEvent_ agent event this = Normal (set_followupEvent_ envelope this)
    /\ get_prop envelope "name" = get_prop event "name".

(** ** Further notions for the accumulator and the adapters *)

(** The elements of a sequence that are not [Suggestions] elements. *)
Definition other_elements (l : list RichResponse) : list RichResponse :=
  filter (fun r => instanceof_SuggestionsResponse r = false) l.

(** The [Payload] elements of a sequence for a platform tag. *)
Definition payloads_for (platform : option string) (l : list RichResponse)
  : list RichResponse :=
  filter
    (fun r => instanceof_PayloadResponse r && platform_matches platform r = true)
    l.

(** An accumulated element and what it has become later: the same element,
    or, for a [Suggestions] element, one with the same tag whose reply list
    has only been extended at its end. *)
Definition grows (a b : RichResponse) : Prop :=
  match a, b with
  | SuggestionsResponse p rs, SuggestionsResponse q rs' => p = q /\ rs `prefix_of` rs'
  | _, _ => a = b
  end.

(** A later state of an accumulated sequence: the elements that were there
    are still there, in their places, and what is new comes after them. *)
Definition accumulates (old new : list RichResponse) : Prop :=
  exists kept tail, new = kept ++ tail /\ Forall2 grows old kept.

(** What [add] can take: a string or an element. *)
Definition addable (response : response_arg) : Prop := is_Some (element_of response).

(** Modelled from the spec: what [addContext_] of a version adapter does with
    a context given by its bare name, whose code is not part of the file. The
    context is stored at the end of the outgoing set under the name
    [qualify s]: the name itself for v1, the session path that ends with the
    name for v2. *)
Definition stores_under (agent : Agent) (qualify : string -> string) : Prop :=
  forall (s : string) (this : WebhookClient),
    addContext_ agent (JObj [("name", JStr s)]) this =
      Normal (set_outgoingContexts_
                (outgoingContexts_ this ++ [JObj [("name", JStr (qualify s))]])
                this).

(** The platform of origin passes the check of [send_]: it is [undefined],
    [null], [PLATFORMS.UNSPECIFIED] or one of the supported platforms. *)
Definition source_accepted (source : jsval) : Prop :=
  source = JUndefined \/ source = JNull
  \/ source = JStr (UNSPECIFIED PLATFORMS)
  \/ exists s, source = JStr s /\ In s SUPPORTED_RICH_MESSAGE_PLATFORMS.

(** * Properties *)

(** ** The response accumulator *)

Lemma same_tag_true (p q : option string) :
  same_tag p q = true <-> (unspecified p = true /\ unspecified q = true) \/ p = q.
Proof.
  unfold same_tag. rewrite orb_true_iff, andb_true_iff.
  split.
  - intros [[Hq Hp] | Heq]; [left; done | right].
    destruct p as [s|], q as [t|]; simpl in Heq; try done.
    apply String.eqb_eq in Heq. by subst.
  - intros [[Hp Hq] | ->]; [left; done | right].
    destruct q as [t|]; simpl; [apply String.eqb_refl | done].
Qed.

Lemma same_tag_class (p q r : option string) :
  same_tag p q = true -> same_tag r p = same_tag r q.
Proof.
  intros H. apply same_tag_true in H as [[Hp Hq] | ->]; [|done].
  unfold same_tag. rewrite Hp, Hq. simpl.
  destruct (unspecified r) eqn:Hr; simpl; [done|].
  destruct (platform_eqb r p) eqn:E1, (platform_eqb r q) eqn:E2; try done.
  - assert (r = p) as ->; [|congruence].
    destruct r, p; simpl in E1; try done. apply String.eqb_eq in E1. by subst.
  - assert (r = q) as ->; [|congruence].
    destruct r, q; simpl in E2; try done. apply String.eqb_eq in E2. by subst.
Qed.

Lemma same_tag_sym (p q : option string) : same_tag p q = same_tag q p.
Proof.
  unfold same_tag. rewrite (andb_comm (unspecified q)). f_equal.
  destruct p, q; simpl; try done. apply String.eqb_sym.
Qed.

Lemma list_find_split {A} (Q : A -> Prop) `{!forall x, Decision (Q x)} (l : list A) i e :
  list_find Q l = Some (i, e) ->
  exists l1 l2, l = l1 ++ e :: l2 /\ length l1 = i /\ Forall (fun x => ~ Q x) l1 /\ Q e.
Proof.
  intros (Hi & HQ & Hleast)%list_find_Some.
  exists (take i l), (drop (S i) l). split_and!.
  - symmetry. by apply take_drop_middle.
  - apply length_take_le. apply lookup_lt_Some in Hi. lia.
  - apply Forall_lookup. intros j y Hj.
    apply lookup_take_Some in Hj as [Hj Hlt]. by eapply Hleast.
  - done.
Qed.

Lemma sugg_test_class (p q : option string) (r : RichResponse) :
  same_tag p q = true -> sugg_test p r = sugg_test q r.
Proof.
  intros H. unfold sugg_test, platform_matches. f_equal.
  change (same_tag p (platform_of r) = same_tag q (platform_of r)).
  rewrite (same_tag_sym p), (same_tag_sym q). by apply same_tag_class.
Qed.

Lemma sugg_test_other (p q : option string) (r : RichResponse) :
  same_tag p q = false -> sugg_test q r = true -> sugg_test p r = false.
Proof.
  intros Hpq Hq. destruct (sugg_test p r) eqn:Hp; [|done].
  unfold sugg_test in *. apply andb_true_iff in Hp as [_ Hp], Hq as [_ Hq].
  change (same_tag p (platform_of r) = true) in Hp.
  change (same_tag q (platform_of r) = true) in Hq.
  rewrite same_tag_sym in Hq.
  rewrite (same_tag_class _ _ p Hq) in Hp. congruence.
Qed.

Lemma sugg_test_addReply (p : option string) reply (r : RichResponse) :
  sugg_test p (addReply_ reply r) = sugg_test p r.
Proof. by destruct r. Qed.

Lemma suggestions_for_snoc_other p l r :
  sugg_test p r = false -> suggestions_for p (l ++ [r]) = suggestions_for p l.
Proof.
  intros H. unfold suggestions_for. rewrite filter_app, filter_cons_False, filter_nil.
  - apply app_nil_r.
  - fold (sugg_test p r). congruence.
Qed.

Lemma add_rich_step (this : WebhookClient) (r : RichResponse) (p : option string) :
  at_most_one (responseMessages_ this) ->
  exists this',
    add this (Rich r) = Normal this' /\
    suggestions_for p (responseMessages_ this') =
      (if sugg_test p r
       then merge_step (suggestions_for p (responseMessages_ this)) r
       else suggestions_for p (responseMessages_ this)).
Proof.
  intros Hinv.
  destruct r as [t | t s i b | u | q rs | q pl];
    try (eexists; split; [reflexivity|]; simpl;
         by rewrite suggestions_for_snoc_other).
  unfold add. simpl.
  destruct (existingSuggestion_ this q) as [[i e]|] eqn:Hfind.
  - eexists; split; [reflexivity|]. simpl.
    apply list_find_split in Hfind as (l1 & l2 & Hl & Hlen & Hl1 & He).
    rewrite Hl. rewrite alter_app_r_alt by lia.
    replace (i - length l1)%nat with 0%nat by lia. simpl.
    fold (sugg_test q e) in He.
    specialize (Hinv p). rewrite Hl in Hinv. unfold suggestions_for in *.
    rewrite !filter_app, !filter_cons in *.
    fold (sugg_test p e) in *.
    fold (sugg_test p (addReply_ (first_reply rs) e)).
    rewrite sugg_test_addReply.
    change (sugg_test p (SuggestionsResponse q rs)) with (same_tag p q).
    destruct (same_tag p q) eqn:Hpq.
    + rewrite (sugg_test_class p q e Hpq), He in *.
      rewrite !decide_True in * by done.
      assert (filter (fun r => instanceof_SuggestionsResponse r && platform_matches p r = true) l1 = []) as Hnil.
      { clear -Hl1 Hpq. induction Hl1 as [|x l Hx _ IH]; [done|].
        rewrite filter_cons_False; [done|].
        fold (sugg_test p x). rewrite (sugg_test_class p q x Hpq). done. }
      rewrite Hnil in *. simpl in *.
      destruct (filter _ l2); [done | simpl in Hinv; lia].
    + rewrite (sugg_test_other p q e Hpq He).
      by rewrite !decide_False by done.
  - eexists; split; [reflexivity|]. simpl.
    change (sugg_test p (SuggestionsResponse q rs)) with (same_tag p q).
    apply list_find_None in Hfind.
    destruct (same_tag p q) eqn:Hpq.
    + unfold suggestions_for. rewrite filter_app.
      assert (filter (fun r => instanceof_SuggestionsResponse r && platform_matches p r = true)
                (responseMessages_ this) = []) as ->.
      { clear -Hfind Hpq. induction Hfind as [|x l Hx _ IH]; [done|].
        rewrite filter_cons_False; [done|].
        fold (sugg_test p x). rewrite (sugg_test_class p q x Hpq). done. }
      simpl. rewrite filter_cons_True; [done|].
      change (same_tag p q = true). done.
    + apply suggestions_for_snoc_other.
      change (same_tag p q = false). done.
Qed.

Lemma merge_step_length found r : length (merge_step found r) = 1%nat.
Proof. by destruct found. Qed.

Lemma add_call_step (this : WebhookClient) (response : response_arg) :
  at_most_one (responseMessages_ this) ->
  let this' := add_all this [response] in
  at_most_one (responseMessages_ this') /\
  forall p,
    suggestions_for p (responseMessages_ this') =
      fold_left merge_step
        (added_suggestions p [response])
        (suggestions_for p (responseMessages_ this)).
Proof.
  intros Hinv. simpl.
  assert (forall r, add this response = add this (Rich r) ->
            element_of response = Some r ->
            let this' := match add this response with Normal t => t | Throw _ => this end in
            forall p, suggestions_for p (responseMessages_ this') =
              fold_left merge_step (added_suggestions p [response])
                (suggestions_for p (responseMessages_ this))) as Hrich.
  { intros r Hadd Hel this' p. subst this'. rewrite Hadd.
    destruct (add_rich_step this r p Hinv) as (t & -> & ->).
    unfold added_suggestions. simpl. rewrite Hel. simpl.
    unfold suggestions_for at 3. rewrite filter_cons, filter_nil.
    fold (sugg_test p r). by destruct (sugg_test p r). }
  assert (forall p, suggestions_for p
            (responseMessages_ match add this response with Normal t => t | Throw _ => this end) =
              fold_left merge_step (added_suggestions p [response])
                (suggestions_for p (responseMessages_ this))) as Heq.
  { destruct response as [v | r | items isArray].
    - destruct v; try (intros p; reflexivity).
      apply (Hrich (TextResponse s)); reflexivity.
    - apply (Hrich r); reflexivity.
    - intros p; reflexivity. }
  split; [|done].
  intros p. rewrite Heq.
  unfold added_suggestions. simpl.
  destruct (element_of response) as [r|]; simpl; [|apply Hinv].
  unfold suggestions_for at 1. rewrite filter_cons, filter_nil.
  case_decide; simpl; [by rewrite merge_step_length | apply Hinv].
Qed.

Lemma add_all_app this l1 l2 : add_all this (l1 ++ l2) = add_all (add_all this l1) l2.
Proof. apply fold_left_app. Qed.

Lemma added_suggestions_cons p response calls :
  added_suggestions p (response :: calls) =
    added_suggestions p [response] ++ added_suggestions p calls.
Proof.
  unfold added_suggestions, suggestions_for. simpl.
  destruct (element_of response); simpl; [|done].
  rewrite !filter_cons, filter_nil. by case_decide.
Qed.

Lemma add_all_suggestions (calls : list response_arg) (this : WebhookClient) :
  at_most_one (responseMessages_ this) ->
  forall p,
    suggestions_for p (responseMessages_ (add_all this calls)) =
      fold_left merge_step (added_suggestions p calls)
        (suggestions_for p (responseMessages_ this)).
Proof.
  revert this. induction calls as [|response calls IH]; intros this Hinv p; [done|].
  change (response :: calls) with ([response] ++ calls).
  rewrite add_all_app.
  destruct (add_call_step this response Hinv) as [Hinv' Hstep].
  rewrite (IH _ Hinv' p), Hstep.
  change ([response] ++ calls) with (response :: calls).
  by rewrite (added_suggestions_cons p response calls), fold_left_app.
Qed.

Lemma merge_fold q rs (later : list RichResponse) :
  fold_left merge_step later [SuggestionsResponse q rs] =
    [SuggestionsResponse q (rs ++ map (fun r => first_reply (replies_of r)) later)].
Proof.
  revert rs. induction later as [|r later IH]; intros rs; simpl.
  - by rewrite app_nil_r.
  - rewrite IH. by rewrite <- app_assoc.
Qed.

Lemma single_reply_first (r : RichResponse) :
  length (replies_of r) = 1%nat -> [first_reply (replies_of r)] = replies_of r.
Proof. destruct (replies_of r) as [|x [|y l]]; by simpl. Qed.

(** C1, as amended. On a fresh accumulator, after any sequence of [add]
    calls the accumulated sequence holds, for every platform tag that some
    added [Suggestions] element carries, exactly one [Suggestions] element;
    its reply list is the reply list of the first such element added followed
    by the first reply of each later one, in call order. This is the
    concatenation of the added reply lists when every later element carries
    exactly one reply. *)
Theorem add_merges_suggestions (this : WebhookClient) (calls : list response_arg)
    (p : option string) :
  responseMessages_ this = [] ->
  match added_suggestions p calls with
  | [] => suggestions_for p (responseMessages_ (add_all this calls)) = []
  | first :: later =>
      suggestions_for p (responseMessages_ (add_all this calls)) =
        [SuggestionsResponse (platform_of first) (merged_replies (first :: later))]
      /\ (Forall (fun r => length (replies_of r) = 1%nat) later ->
          merged_replies (first :: later) = concatenated_replies p calls)
  end.
Proof.
  intros Hfresh.
  assert (at_most_one (responseMessages_ this)) as Hinv.
  { intros q. rewrite Hfresh. simpl. lia. }
  rewrite (add_all_suggestions calls this Hinv p), Hfresh.
  unfold concatenated_replies.
  destruct (added_suggestions p calls) as [|first later] eqn:Hadded; [done|].
  assert (instanceof_SuggestionsResponse first = true) as Hfirst.
  { assert (first ∈ added_suggestions p calls) as Hin by (rewrite Hadded; left).
    unfold added_suggestions, suggestions_for in Hin.
    apply list_elem_of_filter in Hin as [Hin _].
    by apply andb_true_iff in Hin as [? _]. }
  destruct first as [| | | q rs |]; try (simpl in Hfirst; discriminate). simpl.
  split; [apply merge_fold|].
  intros Hone. f_equal. clear Hadded.
  induction Hone as [|r later Hr _ IH]; [done|]. simpl.
  rewrite <- IH.
  change (first_reply (replies_of r) :: ?l) with ([first_reply (replies_of r)] ++ l).
  by rewrite (single_reply_first r Hr).
Qed.

(** ** The context store *)

Lemma list_ascii_of_substring (s : string) (a b : nat) :
  list_ascii_of_string (substring a b s) = take b (drop a (list_ascii_of_string s)).
Proof.
  revert a b. induction s as [|c s IH]; intros a b.
  - destruct a, b; reflexivity.
  - destruct a as [|a]; simpl.
    + destruct b as [|b]; simpl; [done|]. f_equal. apply (IH 0%nat b).
    + apply IH.
Qed.

Lemma length_list_ascii (s : string) :
  length (list_ascii_of_string s) = String.length s.
Proof. induction s; simpl; congruence. Qed.

Lemma list_ascii_inj (s t : string) :
  list_ascii_of_string s = list_ascii_of_string t -> s = t.
Proof.
  intros H. rewrite <- (string_of_list_ascii_of_string s), H.
  apply string_of_list_ascii_of_string.
Qed.

Lemma suffix_drop {A} (c n : list A) :
  c `suffix_of` n <->
  (length c <= length n)%nat /\ drop (length n - length c) n = c.
Proof.
  split.
  - intros [k ->]. rewrite length_app. split; [lia|].
    replace (length k + length c - length c)%nat with (length k) by lia.
    by rewrite drop_app_length.
  - intros [_ H]. exists (take (length n - length c) n).
    set (m := (length n - length c)%nat) in *.
    rewrite <- H. by rewrite take_drop.
Qed.

Lemma slice_ends_with (name context : string) :
  context <> "" ->
  slice name (- Z.of_nat (String.length context)) = context <-> ends_with name context.
Proof.
  intros Hne.
  assert (0 < String.length context)%nat as Hpos.
  { destruct context; [done | simpl; lia]. }
  unfold slice, ends_with. rewrite suffix_drop, !length_list_ascii.
  replace (- Z.of_nat (String.length context) <? 0) with true
    by (symmetry; apply Z.ltb_lt; lia).
  destruct (decide (String.length context <= String.length name)%nat) as [Hle|Hgt].
  - rewrite Z.max_l by lia.
    replace (Z.to_nat (Z.of_nat (String.length name) + - Z.of_nat (String.length context)))
      with (String.length name - String.length context)%nat by lia.
    replace (Z.to_nat (Z.of_nat (String.length name)
                       - (Z.of_nat (String.length name) + - Z.of_nat (String.length context))))
      with (String.length context) by lia.
    assert (forall t, list_ascii_of_string
              (substring (String.length name - String.length context)
                 (String.length context) name) = t <->
            drop (String.length name - String.length context)
              (list_ascii_of_string name) = t) as Hsub.
    { intros t. rewrite list_ascii_of_substring, take_ge; [done|].
      rewrite length_drop, length_list_ascii. lia. }
    split.
    + intros H. split; [done|]. apply Hsub. by rewrite H.
    + intros [_ H]. apply list_ascii_inj. by apply Hsub.
  - rewrite Z.max_r by lia. split; [|intros [? _]; lia].
    intros H. exfalso. apply (f_equal String.length) in H.
    rewrite <- !length_list_ascii, list_ascii_of_substring in H.
    rewrite length_take, length_drop, !length_list_ascii in H. lia.
Qed.

Lemma filterM_map {A B} (g : A -> B) (f : B -> completion bool) (b : A -> bool)
    (l : list A) :
  (forall x, f (g x) = Normal (b x)) ->
  filterM f (map g l) = Normal (map g (filter (fun x => b x = true) l)).
Proof.
  intros Hf. induction l as [|x l IH]; [done|].
  simpl. rewrite Hf, IH. simpl. rewrite filter_cons.
  destruct (b x); [by rewrite decide_True | by rewrite decide_False].
Qed.

(** C2, as amended. Under protocol v1 [clearContext] removes exactly the
    outgoing contexts whose name equals the given name. Under protocol v2,
    for a name that is not empty, it removes exactly those whose name ends
    with the given name, and keeps the others in their order. *)
Theorem clearContext_removes (this : WebhookClient) (cs : list DialogflowContext)
    (context : string) :
  outgoingContexts_ this = map context_object cs ->
  (agentVersion this = 1 ->
   clearContext this context =
     Normal (set_outgoingContexts_
               (map context_object (filter (fun c => name c <> context) cs)) this))
  /\
  (agentVersion this = 2 -> context <> "" ->
   clearContext this context =
     Normal (set_outgoingContexts_
               (map context_object
                  (filter (fun c => ~ ends_with (name c) context) cs)) this)).
Proof.
  intros Hcs. split.
  - intros Hv. unfold clearContext. rewrite Hv, Hcs. simpl.
    rewrite (filterM_map context_object _ (fun c => negb (String.eqb (name c) context)));
      [|done].
    simpl. do 3 f_equal. apply list_filter_iff. intros c.
    rewrite negb_true_iff. split.
    + intros H E. by rewrite E, String.eqb_refl in H.
    + intros H. by apply String.eqb_neq.
  - intros Hv Hne. unfold clearContext. rewrite Hv, Hcs. simpl.
    rewrite (filterM_map context_object _
               (fun c => negb (String.eqb
                                 (slice (name c) (- Z.of_nat (String.length context)))
                                 context))); [|done].
    simpl. do 3 f_equal. apply list_filter_iff. intros c.
    rewrite negb_true_iff, <- (slice_ends_with _ _ Hne). split.
    + intros H E. apply String.eqb_eq in E. congruence.
    + intros H. by apply String.eqb_neq.
Qed.

(** ** The send step *)

Lemma supported_source (s : string) :
  In s SUPPORTED_RICH_MESSAGE_PLATFORMS -> not_supported (JStr s) = false.
Proof.
  intros Hin. unfold not_supported. apply negb_false_iff, existsb_exists.
  exists s. split; [done|]. simpl. apply String.eqb_refl.
Qed.

(** Steps [send_] past the platform check, for a source that is one of the
    supported platforms. *)
Ltac pass_platform_check Hsrc Hin :=
  unfold send_; simpl; rewrite ?Hsrc, ?(supported_source _ Hin); simpl.

(** C4. When the request comes from Actions on Google, the accumulator holds
    no payload for that platform and its first element is not a text
    response, [send_] puts a blank text response in front of the accumulated
    sequence before anything else: the adapter serialises the sequence so
    extended, and a response given to [send_] is added after it. When the
    first element is a text response, the adapter serialises the sequence as
    it is. Actions on Google is taken to be one of the supported platforms. *)
Theorem send_leading_text (this : WebhookClient) (first : RichResponse)
    (rest : list RichResponse) :
  In (ACTIONS_ON_GOOGLE PLATFORMS) SUPPORTED_RICH_MESSAGE_PLATFORMS ->
  requestSource this = JStr (ACTIONS_ON_GOOGLE PLATFORMS) ->
  existingPayload_ this (Some (ACTIONS_ON_GOOGLE PLATFORMS)) = None ->
  responseMessages_ this = first :: rest ->
  (instanceof_TextResponse first = false ->
   send_ this (Val JUndefined) =
     sendResponse_ (agent_of (client this))
       (set_responseMessages_ (TextResponse " " :: first :: rest) this)
   /\ forall response,
        send_ this response =
          send_ (set_responseMessages_ (TextResponse " " :: first :: rest) this) response)
  /\
  (instanceof_TextResponse first = true ->
   send_ this (Val JUndefined) = sendResponse_ (agent_of (client this)) this).
Proof.
  intros Hin Hsrc Hpay Hmsgs.
  assert (existingPayload_
            (set_responseMessages_ (TextResponse " " :: first :: rest) this)
            (Some (ACTIONS_ON_GOOGLE PLATFORMS)) = None) as Hpay'.
  { unfold existingPayload_ in *. rewrite Hmsgs in Hpay. simpl in *.
    by rewrite Hpay. }
  split; intros Hfirst.
  - assert (forall response,
              send_ this response =
                send_ (set_responseMessages_ (TextResponse " " :: first :: rest) this)
                  response) as Hsend.
    { intros response. pass_platform_check Hsrc Hin.
      by rewrite Hpay, Hpay', Hmsgs, Hfirst, String.eqb_refl. }
    split; [|done].
    rewrite Hsend. pass_platform_check Hsrc Hin.
    by rewrite Hpay', String.eqb_refl.
  - pass_platform_check Hsrc Hin.
    by rewrite Hmsgs, Hfirst, andb_false_r.
Qed.

(** C9. When the request comes from Actions on Google and nothing has been
    accumulated, [send_] puts no text response in front: the adapter
    serialises the client as it is, with its empty sequence. Actions on
    Google is taken to be one of the supported platforms. *)
Theorem send_empty_sequence (this : WebhookClient) :
  In (ACTIONS_ON_GOOGLE PLATFORMS) SUPPORTED_RICH_MESSAGE_PLATFORMS ->
  requestSource this = JStr (ACTIONS_ON_GOOGLE PLATFORMS) ->
  responseMessages_ this = [] ->
  send_ this (Val JUndefined) = sendResponse_ (agent_of (client this)) this
  /\ responseMessages_ this = [].
Proof.
  intros Hin Hsrc Hmsgs. split; [|done].
  pass_platform_check Hsrc Hin.
  by rewrite Hmsgs, andb_false_r.
Qed.

(** C5. An array given to [send_] is not added: an array has no [isArray]
    property, so the branch that would pass its members through [add] is
    never taken and [send_] behaves as if it had been given nothing. *)
Theorem send_array_not_added (this : WebhookClient) (items : list response_arg) :
  send_ this (Arr items JUndefined) = send_ this (Val JUndefined).
Proof. unfold send_. by destruct (_ && _ && _ && _). Qed.

(** ** The dispatch engine *)

(** C3. With a map that has no handler under the action of the request and
    none under [null], [handleRequest] returns a rejected promise and calls
    no handler and no adapter: the client is unchanged but for its host
    response. On that response [status] is called twice, with 400 and then
    with the message, so that the status it is left with is the message and
    not 400. *)
Theorem handleRequest_no_handler (this : WebhookClient)
    (m : gmap (option string) requestCallback) :
  m !! action this = None ->
  m !! (None : option string) = None ->
  exists this',
    handleRequest this (HMap m) =
      Normal (Rejected (Error "No handler for requested action"), this')
    /\ this' =
       set_response_
         (status (JStr "No handler for requested action")
            (status (JNum RESPONSE_CODE_BAD_REQUEST) (response_ this)))
         this
    /\ statusCode (response_ this') = JStr "No handler for requested action"
    /\ statusCode (response_ this') <> JNum RESPONSE_CODE_BAD_REQUEST.
Proof.
  intros Haction Hnull. eexists. split_and!; [|reflexivity|reflexivity|done].
  unfold handleRequest. by rewrite Haction, Hnull.
Qed.

(** ** The request normalizer *)

(** C6, as amended. The constructor throws when the request handle or the
    response handle is missing. Otherwise it reads [result] and
    [queryResult] off the body: a truthy [result] gives version 1, whatever
    [queryResult] holds; a [result] that is absent or falsy with a truthy
    [queryResult] gives version 2; when neither is truthy it throws. *)
Theorem constructor_version (options : Options) :
  (request options = None ->
   constructor options = Throw (Error "Request can NOT be empty."))
  /\
  (is_Some (request options) -> response options = None ->
   constructor options = Throw (Error "Response can NOT be empty."))
  /\
  (forall request_ response_ result queryResult,
     request options = Some request_ ->
     response options = Some response_ ->
     get_prop (body request_) "result" = Normal result ->
     get_prop (body request_) "queryResult" = Normal queryResult ->
     (truthy result = true ->
      exists this, constructor options = Normal this
                   /\ agentVersion this = 1 /\ client this = V1)
     /\
     (truthy result = false -> truthy queryResult = true ->
      exists this, constructor options = Normal this
                   /\ agentVersion this = 2 /\ client this = V2)
     /\
     (truthy result = false -> truthy queryResult = false ->
      constructor options =
        Throw (Error "Invalid or unknown request type (not a Dialogflow v1 or v2 webhook request)."))).
Proof.
  unfold constructor. split_and!.
  - by intros ->.
  - intros [request_ ->] ->. done.
  - intros request_ response_ result queryResult -> -> Hr Hq.
    rewrite Hr. simpl. split_and!.
    + intros ->. simpl. eauto.
    + intros -> Ht. rewrite Hq. simpl. rewrite Ht. simpl. eauto.
    + intros -> Ht. rewrite Hq. simpl. by rewrite Ht.
Qed.

(** C8, as amended. When the [result] field of the payload is truthy the
    constructor succeeds and selects version 1 and the v1 adapter, whatever
    the [queryResult] field holds: it is not even read. Version 2 is selected
    only when [result] is absent or falsy. *)
Theorem constructor_v1_precedence (request_ : HostRequest) (response_ : HostResponse)
    (props : list (string * jsval)) :
  body request_ = JObj props ->
  (truthy (lookup_prop "result" props) = true ->
   exists this,
     constructor {| request := Some request_; response := Some response_ |} = Normal this
     /\ agentVersion this = 1 /\ client this = V1)
  /\
  (forall this,
     constructor {| request := Some request_; response := Some response_ |} = Normal this ->
     agentVersion this = 2 ->
     truthy (lookup_prop "result" props) = false).
Proof.
  intros Hbody. unfold constructor. simpl. rewrite Hbody. simpl. split.
  - intros ->. simpl. eauto.
  - intros this. destruct (truthy (lookup_prop "result" props)); [|done].
    simpl. intros [= <-]. simpl. lia.
Qed.

(** ** Contexts and followup events *)

(** C7. For an argument that is [null] or [undefined], [setContext] raises
    no error of its own: the test for a name is skipped and the argument is
    handed to the adapter as the context to add. *)
Theorem setContext_absent_argument (this : WebhookClient) :
  setContext this JNull = addContext_ (agent_of (client this)) JNull this
  /\ setContext this JUndefined = addContext_ (agent_of (client this)) JUndefined this.
Proof. split; reflexivity. Qed.

(** A context given as an empty string, or as an object whose name is absent
    or falsy, is refused and the adapter is not called. *)
Lemma setContext_no_name (this : WebhookClient) (props : list (string * jsval)) :
  setContext this (JStr "") =
    Throw (Error "context must be provided and must have a name")
  /\ (truthy (lookup_prop "name" props) = false ->
      setContext this (JObj props) =
        Throw (Error "context must be provided and must have a name")).
Proof.
  split; [reflexivity|]. intros H. unfold setContext. simpl. by rewrite H.
Qed.

(** C10. Given the empty string, [setFollowupEvent] checks nothing and hands
    the adapter an event whose name is the empty string; with an adapter that
    records the event it is given, the call succeeds and the followup event
    of the client has the empty string as its name. Given an object whose
    name is absent, empty or not a string, it throws. *)
Theorem setFollowupEvent_validation (this : WebhookClient) :
  records_followup_event (agent_of (client this)) ->
  setFollowupEvent this (JStr "") =
    setFollowupEvent_ (agent_of (client this)) (JObj [("name", JStr "")]) this
  /\ (exists this',
        setFollowupEvent this (JStr "") = Normal this'
        /\ get_prop (followupEvent_ this') "name" = Normal (JStr ""))
  /\ (forall props,
        is_string (lookup_prop "name" props) = false
        \/ lookup_prop "name" props = JStr "" ->
        setFollowupEvent this (JObj props) =
          Throw (Error "Followup event must be a string or have a name string")).
Proof.
  intros Hrec. split_and!.
  - reflexivity.
  - destruct (Hrec (JObj [("name", JStr "")]) this) as (envelope & Hset & Hname).
    exists (set_followupEvent_ envelope this). split; [exact Hset|].
    simpl. by rewrite Hname.
  - intros props [H | H]; unfold setFollowupEvent; simpl; by rewrite H.
Qed.

(** ** More on the response accumulator *)

Lemma same_tag_refl (p : option string) : same_tag p p = true.
Proof. apply same_tag_true. by right. Qed.

Lemma filter_alter_fixed {A} (P : A -> Prop) `{!forall x, Decision (P x)}
    (f : A -> A) (i : nat) (l : list A) :
  (forall x, P (f x) <-> P x) -> (forall x, P x -> f x = x) ->
  filter P (alter f i l) = filter P l.
Proof.
  intros HP Hf. revert i. induction l as [|x l IH]; intros [|i]; try done.
  - change (alter f 0%nat (x :: l)) with (f x :: l).
    rewrite !filter_cons. destruct (decide (P x)) as [Hx|Hx].
    + by rewrite (Hf x Hx), decide_True.
    + rewrite decide_False; [done|]. by rewrite HP.
  - change (alter f (S i) (x :: l)) with (x :: alter f i l).
    rewrite !filter_cons. by rewrite (IH i).
Qed.

Lemma add_result (this : WebhookClient) (response : response_arg) :
  match element_of response with
  | Some r =>
      add this response = Normal (set_responseMessages_ (responseMessages_ this ++ [r]) this)
      \/ exists i reply,
           instanceof_SuggestionsResponse r = true
           /\ add this response =
              Normal (set_responseMessages_
                        (alter (addReply_ reply) i (responseMessages_ this)) this)
  | None => add this response = Throw (Error "unknown response type")
  end.
Proof.
  destruct response as [v | r | items isArray]; simpl; [destruct v; try done; by left | | done].
  destruct r as [| | | q rs |]; try by left.
  unfold add. simpl. destruct (existingSuggestion_ this q) as [[i e]|]; [|by left].
  right. by exists i, (first_reply rs).
Qed.

Lemma other_elements_add (this : WebhookClient) (response : response_arg) :
  other_elements (responseMessages_ (add_all this [response])) =
    other_elements (responseMessages_ this)
    ++ other_elements (omap element_of [response]).
Proof.
  pose proof (add_result this response) as H. simpl.
  destruct (element_of response) as [r|]; simpl.
  - destruct H as [-> | (i & reply & Hr & ->)]; simpl.
    + unfold other_elements. by rewrite filter_app.
    + unfold other_elements at 3. rewrite filter_cons_False, filter_nil, app_nil_r
        by congruence.
      apply filter_alter_fixed.
      * intros x. by destruct x.
      * intros x Hx. by destruct x.
  - rewrite H. unfold other_elements at 3. by rewrite filter_nil, app_nil_r.
Qed.

Lemma omap_element_of_cons response calls :
  omap element_of (response :: calls) =
    omap element_of [response] ++ omap element_of calls.
Proof. simpl. by destruct (element_of response). Qed.

Lemma add_keeps_other_elements_aux (this : WebhookClient) (calls : list response_arg) :
  other_elements (responseMessages_ (add_all this calls)) =
    other_elements (responseMessages_ this) ++ other_elements (omap element_of calls).
Proof.
  revert this. induction calls as [|response calls IH]; intros this.
  - symmetry. apply app_nil_r.
  - rewrite (omap_element_of_cons response calls).
    change (add_all this (response :: calls))
      with (add_all (add_all this [response]) calls).
    rewrite IH, other_elements_add.
    unfold other_elements. by rewrite filter_app, app_assoc.
Qed.

(** X1. The elements other than [Suggestions] elements are never merged,
    dropped or reordered by [add]: after any sequence of calls they are the
    ones that were accumulated before, followed by the ones added, in call
    order. *)
Theorem add_keeps_other_elements (this : WebhookClient) (calls : list response_arg) :
  other_elements (responseMessages_ (add_all this calls)) =
    other_elements (responseMessages_ this) ++ other_elements (omap element_of calls).
Proof. apply add_keeps_other_elements_aux. Qed.

Lemma list_find_head {A} (P : A -> Prop) `{!forall x, Decision (P x)} (l : list A) :
  snd <$> list_find P l = head (filter P l).
Proof.
  induction l as [|x l IH]; [done|].
  simpl. rewrite filter_cons. destruct (decide (P x)); [done|].
  rewrite <- IH. by destruct (list_find P l) as [[??]|].
Qed.

Lemma payloads_of_other_elements p l : payloads_for p (other_elements l) = payloads_for p l.
Proof.
  unfold payloads_for, other_elements. apply list_filter_filter_l.
  intros r Hr. by destruct r.
Qed.

(** X2. [Payload] elements are never merged: after any sequence of [add]
    calls the payloads for a platform tag are those accumulated before
    followed by those added, in call order, and [existingPayload_] returns
    the first of them. *)
Theorem payloads_not_merged (this : WebhookClient) (calls : list response_arg)
    (p : option string) :
  payloads_for p (responseMessages_ (add_all this calls)) =
    payloads_for p (responseMessages_ this) ++ payloads_for p (omap element_of calls)
  /\ snd <$> existingPayload_ (add_all this calls) p =
     head (payloads_for p (responseMessages_ this)
           ++ payloads_for p (omap element_of calls)).
Proof.
  assert (payloads_for p (responseMessages_ (add_all this calls)) =
            payloads_for p (responseMessages_ this)
            ++ payloads_for p (omap element_of calls)) as H.
  { rewrite <- (payloads_of_other_elements p (responseMessages_ (add_all this calls))).
    rewrite add_keeps_other_elements_aux.
    unfold payloads_for at 1. rewrite filter_app.
    fold (payloads_for p (other_elements (responseMessages_ this))).
    fold (payloads_for p (other_elements (omap element_of calls))).
    by rewrite !payloads_of_other_elements. }
  split; [done|].
  unfold existingPayload_. rewrite list_find_head.
  fold (payloads_for p (responseMessages_ (add_all this calls))). by rewrite H.
Qed.

(** X3. [add] keeps the accumulator free of duplicates: when it holds at
    most one [Suggestions] element for each platform tag, it still does after
    any sequence of calls. *)
Theorem add_keeps_at_most_one (this : WebhookClient) (calls : list response_arg) :
  at_most_one (responseMessages_ this) ->
  at_most_one (responseMessages_ (add_all this calls)).
Proof.
  revert this. induction calls as [|response calls IH]; intros this Hinv; [done|].
  change (add_all this (response :: calls))
    with (add_all (add_all this [response]) calls).
  apply IH. by apply add_call_step.
Qed.

Lemma grows_refl (a : RichResponse) : grows a a.
Proof. by destruct a. Qed.

Lemma grows_trans (a b c : RichResponse) : grows a b -> grows b c -> grows a c.
Proof.
  destruct a, b, c; simpl; try congruence; try done.
  intros [-> H1] [-> H2]. split; [done|]. by etrans.
Qed.

Lemma grows_addReply (reply : jsval) (a : RichResponse) : grows a (addReply_ reply a).
Proof.
  destruct a; simpl; try done. split; [done|]. by apply prefix_app_r.
Qed.

Lemma accumulates_refl (l : list RichResponse) : accumulates l l.
Proof.
  exists l, []. split; [by rewrite app_nil_r|].
  apply Forall_Forall2_diag, Forall_forall. intros x _. apply grows_refl.
Qed.

Lemma accumulates_trans (l1 l2 l3 : list RichResponse) :
  accumulates l1 l2 -> accumulates l2 l3 -> accumulates l1 l3.
Proof.
  intros (k1 & t1 & -> & H1) (k2 & t2 & -> & H2).
  apply Forall2_app_inv_l in H2 as (k & t & Hk & _ & ->).
  exists k, (t ++ t2). split; [by rewrite app_assoc|].
  revert k Hk. induction H1 as [|a b l k1 Hab _ IH]; intros k Hk.
  - apply Forall2_nil_inv_l in Hk as ->. constructor.
  - apply Forall2_cons_inv_l in Hk as (c & k' & Hbc & Hk' & ->).
    constructor; [by eapply grows_trans | by apply IH].
Qed.

Lemma accumulates_add (this : WebhookClient) (response : response_arg) :
  accumulates (responseMessages_ this) (responseMessages_ (add_all this [response])).
Proof.
  pose proof (add_result this response) as H. simpl.
  destruct (element_of response) as [r|].
  - destruct H as [-> | (i & reply & _ & ->)]; simpl.
    + exists (responseMessages_ this), [r]. split; [done|].
      apply Forall_Forall2_diag, Forall_forall. intros x _. apply grows_refl.
    + exists (alter (addReply_ reply) i (responseMessages_ this)), [].
      split; [by rewrite app_nil_r|].
      apply Forall2_alter_r.
      * apply Forall_Forall2_diag, Forall_forall. intros x _. apply grows_refl.
      * intros x y _ _ Hxy. eapply grows_trans; [exact Hxy | apply grows_addReply].
  - rewrite H. apply accumulates_refl.
Qed.

(** X4. The accumulator is append-only but for the merge: after any sequence
    of [add] calls every element that was accumulated is still in its place,
    unchanged or, for a [Suggestions] element, with replies appended to its
    list, and the new elements come after them. *)
Theorem add_accumulates (this : WebhookClient) (calls : list response_arg) :
  accumulates (responseMessages_ this) (responseMessages_ (add_all this calls)).
Proof.
  revert this. induction calls as [|response calls IH]; intros this.
  - apply accumulates_refl.
  - change (add_all this (response :: calls))
      with (add_all (add_all this [response]) calls).
    eapply accumulates_trans; [apply accumulates_add | apply IH].
Qed.

(** X5. Right after a [Suggestions] element has been added, the lookup for
    its tag finds an element: the one that was found before, at the same
    place and with the first reply of the new element appended, or, when
    there was none, the new element itself at the end of the sequence. *)
Theorem add_then_existingSuggestion (this : WebhookClient) (p : option string)
    (replies : list jsval) :
  exists this' i e,
    add this (Rich (SuggestionsResponse p replies)) = Normal this'
    /\ existingSuggestion_ this' p = Some (i, e)
    /\ match existingSuggestion_ this p with
       | Some (j, found) => i = j /\ e = addReply_ (first_reply replies) found
       | None => i = length (responseMessages_ this) /\ e = SuggestionsResponse p replies
       end.
Proof.
  unfold add. simpl.
  destruct (existingSuggestion_ this p) as [[j found]|] eqn:Hfind.
  - eexists _, j, _. split_and!; [reflexivity | | done | done].
    unfold existingSuggestion_ in *. simpl.
    apply list_find_Some in Hfind as (Hj & Hfound & Hleast).
    apply list_find_Some. split_and!.
    + by rewrite list_lookup_alter_eq, Hj.
    + fold (sugg_test p (addReply_ (first_reply replies) found)).
      by rewrite sugg_test_addReply.
    + intros k y Hk Hlt. rewrite list_lookup_alter_ne in Hk by lia.
      by eapply Hleast.
  - eexists _, _, _. split_and!; [reflexivity | | done | done].
    unfold existingSuggestion_ in *. simpl.
    rewrite (list_find_app_r _ _ _ Hfind). simpl.
    rewrite decide_True; [done|].
    change (same_tag p p = true). apply same_tag_refl.
Qed.

(** X6. The lookups do not tell the unspecified tags apart: for two tags
    among [undefined], the empty string and [PLATFORMS.UNSPECIFIED],
    [existingSuggestion_] gives the same result, and so does
    [existingPayload_]. *)
Theorem lookup_unspecified (this : WebhookClient) (p q : option string) :
  unspecified p = true -> unspecified q = true ->
  existingSuggestion_ this p = existingSuggestion_ this q
  /\ existingPayload_ this p = existingPayload_ this q.
Proof.
  intros Hp Hq.
  assert (same_tag p q = true) as Hpq by (apply same_tag_true; by left).
  assert (forall r, platform_matches p r = platform_matches q r) as Hm.
  { intros r. change (same_tag p (platform_of r) = same_tag q (platform_of r)).
    rewrite (same_tag_sym p), (same_tag_sym q). by apply same_tag_class. }
  split; apply list_find_ext; intros r; by rewrite Hm.
Qed.

Lemma add_frame_step (this : WebhookClient) (response : response_arg) :
  add_all this [response] =
    set_responseMessages_ (responseMessages_ (add_all this [response])) this.
Proof.
  pose proof (add_result this response) as H. simpl.
  destruct (element_of response) as [r|].
  - by destruct H as [-> | (i & reply & _ & ->)].
  - rewrite H. by destruct this.
Qed.

Lemma add_all_frame (this : WebhookClient) (calls : list response_arg) :
  add_all this calls =
    set_responseMessages_ (responseMessages_ (add_all this calls)) this.
Proof.
  revert this. induction calls as [|response calls IH]; intros this.
  - by destruct this.
  - change (add_all this (response :: calls))
      with (add_all (add_all this [response]) calls).
    etrans; [apply IH|].
    generalize (responseMessages_ (add_all (add_all this [response]) calls)).
    intros l. by rewrite (add_frame_step this response).
Qed.

(** X7. [add] touches nothing but the accumulated sequence: whatever is
    added, the version, the adapter, the host handles, the outgoing contexts,
    the followup event and the request fields of the client stay as they
    were. *)
Theorem add_frame (this : WebhookClient) (calls : list response_arg) :
  add_all this calls =
    set_responseMessages_ (responseMessages_ (add_all this calls)) this.
Proof. apply add_all_frame. Qed.

Lemma forEach_add_app (l1 l2 : list response_arg) (this : WebhookClient) :
  Forall addable l1 ->
  forEach add (l1 ++ l2) this = forEach add l2 (add_all this l1).
Proof.
  intros H. revert this. induction H as [|response l1 [r Hr] _ IH]; intros this; [done|].
  simpl. pose proof (add_result this response) as Hadd. rewrite Hr in Hadd.
  destruct Hadd as [-> | (i & reply & _ & ->)]; simpl; apply IH.
Qed.

(** X8. Passing the members of a list through [add] one after the other
    stops at the first member that is neither a string nor an element: when
    all can be added the result is the client after the whole sequence of
    calls, and otherwise the error of [add] comes out and the members after
    the offending one are not looked at. *)
Theorem forEach_add (this : WebhookClient) (items : list response_arg) :
  (Forall addable items -> forEach add items this = Normal (add_all this items))
  /\ (forall l1 bad l2,
        items = l1 ++ bad :: l2 -> Forall addable l1 -> element_of bad = None ->
        forEach add items this = Throw (Error "unknown response type")).
Proof.
  split.
  - intros H. rewrite <- (app_nil_r items) at 1. by rewrite forEach_add_app.
  - intros l1 bad l2 -> H Hbad. rewrite forEach_add_app by done. simpl.
    pose proof (add_result (add_all this l1) bad) as Hadd. rewrite Hbad in Hadd.
    by rewrite Hadd.
Qed.

(** ** More on the context store *)

Lemma filterM_app {A} (f : A -> completion bool) (l1 l2 kept : list A) :
  filterM f l1 = Normal kept ->
  filterM f (l1 ++ l2) = (kept2 <- filterM f l2 ;; Normal (kept ++ kept2)).
Proof.
  revert kept. induction l1 as [|x l1 IH]; intros kept.
  - intros [= <-]. simpl. by destruct (filterM f l2).
  - simpl. destruct (f x) as [keep|]; [|done]. simpl.
    destruct (filterM f l1) as [kept1|] eqn:H1; [|done]. simpl.
    intros [= <-]. rewrite (IH kept1 eq_refl).
    destruct (filterM f l2); [|done]. simpl. by destruct keep.
Qed.

Lemma clearContext_well_formed (this : WebhookClient) (cs : list DialogflowContext)
    (context : string) :
  outgoingContexts_ this = map context_object cs ->
  exists kept,
    clearContext this context =
      Normal (set_outgoingContexts_ (map context_object kept) this)
    /\ forall this', outgoingContexts_ this' = map context_object kept ->
         agentVersion this' = agentVersion this ->
         clearContext this' context =
           Normal (set_outgoingContexts_ (map context_object kept) this').
Proof.
  intros Hcs. unfold clearContext.
  destruct (agentVersion this =? 1) eqn:H1; [|destruct (agentVersion this =? 2) eqn:H2].
  - exists (filter (fun c => negb (String.eqb (name c) context) = true) cs).
    rewrite Hcs, (filterM_map context_object _
                    (fun c => negb (String.eqb (name c) context))) by done.
    split; [done|]. intros this' -> ->. rewrite H1.
    rewrite (filterM_map context_object _
               (fun c => negb (String.eqb (name c) context))) by done.
    simpl. by rewrite list_filter_filter_l.
  - exists (filter (fun c => negb (String.eqb
                                    (slice (name c) (- Z.of_nat (String.length context)))
                                    context) = true) cs).
    rewrite Hcs, (filterM_map context_object _
                    (fun c => negb (String.eqb
                                      (slice (name c) (- Z.of_nat (String.length context)))
                                      context))) by done.
    split; [done|]. intros this' -> ->. rewrite H1, H2.
    rewrite (filterM_map context_object _
               (fun c => negb (String.eqb
                                 (slice (name c) (- Z.of_nat (String.length context)))
                                 context))) by done.
    simpl. by rewrite list_filter_filter_l.
  - exists cs. split; [by rewrite <- Hcs; destruct this|].
    intros this' Hcs' ->. rewrite H1, H2. rewrite <- Hcs'. by destruct this'.
Qed.

(** X9. Clearing a context twice is the same as clearing it once: on an
    outgoing set of well-formed contexts [clearContext] succeeds, under either
    protocol version, and a second call with the same name changes nothing. *)
Theorem clearContext_idempotent (this : WebhookClient) (cs : list DialogflowContext)
    (context : string) :
  outgoingContexts_ this = map context_object cs ->
  exists this',
    clearContext this context = Normal this'
    /\ clearContext this' context = Normal this'.
Proof.
  intros Hcs.
  destruct (clearContext_well_formed this cs context Hcs) as (kept & -> & Hagain).
  eexists. split; [reflexivity|].
  rewrite Hagain by done. by destruct this.
Qed.

(** X10. One entry that is [null] or [undefined] in the outgoing set makes
    [clearContext] fail: under protocol v1 and v2 the name of every entry is
    read, so the call throws a type error whatever the name to clear. *)
Theorem clearContext_null_entry (this : WebhookClient) (cs : list DialogflowContext)
    (entry : jsval) (rest : list jsval) (context : string) :
  agentVersion this = 1 \/ agentVersion this = 2 ->
  entry = JNull \/ entry = JUndefined ->
  outgoingContexts_ this = map context_object cs ++ entry :: rest ->
  clearContext this context = Throw TypeError.
Proof.
  intros Hv Hentry Hcs. unfold clearContext. rewrite Hcs.
  destruct Hv as [-> | ->]; simpl.
  - erewrite filterM_app;
      [|by apply (filterM_map context_object _
                    (fun c => negb (String.eqb (name c) context)))].
    by destruct Hentry as [-> | ->].
  - erewrite filterM_app;
      [|by apply (filterM_map context_object _
                    (fun c => negb (String.eqb
                                      (slice (name c) (- Z.of_nat (String.length context)))
                                      context)))].
    by destruct Hentry as [-> | ->].
Qed.

Lemma set_outgoingContexts_twice (l l' : list jsval) (this : WebhookClient) :
  set_outgoingContexts_ l (set_outgoingContexts_ l' this) = set_outgoingContexts_ l this.
Proof. reflexivity. Qed.

Lemma String_eqb_false_iff (s t : string) : String.eqb s t = false <-> s <> t.
Proof. apply String.eqb_neq. Qed.

(** X11. A context set by its bare name is cleared by that name. With an
    adapter that stores the context under the name itself (protocol v1), or
    under a path that ends with the name (protocol v2), [setContext] followed
    by [clearContext] with the same non-empty name succeeds and leaves, of
    the well-formed contexts that were there, those that the name does not
    match; the context just set is not among them. *)
Theorem setContext_then_clearContext (this : WebhookClient)
    (cs : list DialogflowContext) (s : string) (qualify : string -> string) :
  stores_under (agent_of (client this)) qualify ->
  outgoingContexts_ this = map context_object cs ->
  s <> "" ->
  (agentVersion this = 1 -> qualify s = s ->
   exists this',
     setContext this (JStr s) = Normal this'
     /\ clearContext this' s =
        Normal (set_outgoingContexts_
                  (map context_object (filter (fun c => name c <> s) cs)) this))
  /\
  (agentVersion this = 2 -> ends_with (qualify s) s ->
   exists this',
     setContext this (JStr s) = Normal this'
     /\ clearContext this' s =
        Normal (set_outgoingContexts_
                  (map context_object (filter (fun c => ~ ends_with (name c) s) cs))
                  this)).
Proof.
  intros Hstore Hcs Hs.
  assert (setContext this (JStr s) =
            Normal (set_outgoingContexts_
                      (map context_object cs ++ [JObj [("name", JStr (qualify s))]])
                      this)) as Hset.
  { unfold setContext. simpl.
    destruct (String.eqb s "") eqn:E; [by apply String.eqb_eq in E|]. simpl.
    by rewrite Hstore, Hcs. }
  split.
  - intros Hv Hq. eexists. split; [exact Hset|].
    unfold clearContext. simpl. rewrite Hv. simpl.
    erewrite filterM_app;
      [|by apply (filterM_map context_object _
                    (fun c => negb (String.eqb (name c) s)))].
    simpl. rewrite Hq, String.eqb_refl. simpl. rewrite app_nil_r.
    rewrite set_outgoingContexts_twice.
    do 3 f_equal. apply list_filter_iff. intros c.
    by rewrite negb_true_iff, String_eqb_false_iff.
  - intros Hv Hq. eexists. split; [exact Hset|].
    unfold clearContext. simpl. rewrite Hv. simpl.
    erewrite filterM_app;
      [|by apply (filterM_map context_object _
                    (fun c => negb (String.eqb
                                      (slice (name c) (- Z.of_nat (String.length s))) s)))].
    simpl. apply (slice_ends_with _ _ Hs) in Hq. rewrite Hq, String.eqb_refl.
    simpl. rewrite app_nil_r, set_outgoingContexts_twice.
    do 3 f_equal. apply list_filter_iff. intros c.
    by rewrite negb_true_iff, String_eqb_false_iff, (slice_ends_with _ _ Hs).
Qed.

(** X12. [getContext] returns the first input context that has the given
    name, and [null] when no input context has it. *)
Theorem getContext_first_match (this : WebhookClient) (cs : list DialogflowContext)
    (contextName : string) :
  contexts this = map context_object cs ->
  (forall before c after,
     cs = before ++ c :: after ->
     name c = contextName ->
     Forall (fun c' => name c' <> contextName) before ->
     getContext this contextName = Normal (context_object c))
  /\ (Forall (fun c => name c <> contextName) cs ->
      getContext this contextName = Normal JNull).
Proof.
  intros Hcs. unfold getContext. rewrite Hcs.
  rewrite (filterM_map context_object _ (fun c => String.eqb (name c) contextName))
    by done.
  simpl.
  assert (forall l, Forall (fun c' => name c' <> contextName) l ->
            filter (fun c => String.eqb (name c) contextName = true) l = []) as Hnone.
  { intros l Hl. induction Hl as [|c l Hc _ IH]; [done|].
    rewrite filter_cons_False; [done|]. by rewrite String.eqb_eq. }
  split.
  - intros before c after -> Hc Hbefore.
    rewrite filter_app, (Hnone _ Hbefore), filter_cons_True by by apply String.eqb_eq.
    done.
  - intros Hall. by rewrite (Hnone _ Hall).
Qed.



(** ** More on the send step and the dispatch engine *)

Lemma not_supported_true (source : jsval) :
  (forall s, In s SUPPORTED_RICH_MESSAGE_PLATFORMS -> source <> JStr s) ->
  not_supported source = true.
Proof.
  intros H. unfold not_supported. apply negb_true_iff.
  destruct (existsb _ _) eqn:E; [|done].
  apply existsb_exists in E as (s & Hin & Hs). exfalso. apply (H s Hin).
  destruct source; simpl in Hs; try done. apply String.eqb_eq in Hs. by subst.
Qed.

Lemma send_rejects (this : WebhookClient) (response : response_arg) :
  ~ source_accepted (requestSource this) ->
  send_ this response = Throw (Error "Platform is not supported.").
Proof.
  intros Hno. unfold send_. rewrite not_supported_true.
  - destruct (requestSource this) as [| | b | z | s | props] eqn:Hsrc; simpl; try done.
    + exfalso. apply Hno. by left.
    + exfalso. apply Hno. right. by left.
    + destruct (String.eqb s (UNSPECIFIED PLATFORMS)) eqn:E; [|done].
      apply String.eqb_eq in E. subst. exfalso. apply Hno. right. right. by left.
  - intros s Hin Hs. apply Hno. right. right. right. by exists s.
Qed.

Lemma send_accepts (this : WebhookClient) :
  source_accepted (requestSource this) ->
  not_supported (requestSource this)
  && negb (match requestSource this with JUndefined => true | _ => false end)
  && negb (match requestSource this with JNull => true | _ => false end)
  && negb (strict_eq_str (requestSource this) (UNSPECIFIED PLATFORMS)) = false.
Proof.
  intros [H | [H | [H | (s & H & Hin)]]]; rewrite H; simpl.
  - by rewrite andb_false_r.
  - by rewrite andb_false_r.
  - by rewrite String.eqb_refl, andb_false_r.
  - by rewrite (supported_source s Hin).
Qed.

(** X15. [send_] refuses a platform of origin that is not accepted, which
    is to say one that is neither [undefined], [null],
    [PLATFORMS.UNSPECIFIED] nor a supported platform: it throws before it
    adds or sends anything, whatever response it is given. For a request
    without a platform of origin it hands the accumulator to the adapter as
    it is. *)
Theorem send_platform_check (this : WebhookClient) :
  (~ source_accepted (requestSource this) ->
   forall response, send_ this response = Throw (Error "Platform is not supported."))
  /\ (requestSource this = JUndefined \/ requestSource this = JNull ->
      send_ this (Val JUndefined) = sendResponse_ (agent_of (client this)) this).
Proof.
  split.
  - intros Hno response. by apply send_rejects.
  - intros Hsrc. unfold send_.
    rewrite send_accepts by (destruct Hsrc as [H | H]; rewrite H; [by left | by right; left]).
    by destruct Hsrc as [-> | ->].
Qed.

(** X16. The blank text is put in front before the response given to [send_]
    is added, not after: for a request from Actions on Google whose
    accumulator is empty, [send_] with an element sends that element alone,
    with no text response before it. *)
Theorem send_adds_after_injection (this : WebhookClient) (r : RichResponse) :
  In (ACTIONS_ON_GOOGLE PLATFORMS) SUPPORTED_RICH_MESSAGE_PLATFORMS ->
  requestSource this = JStr (ACTIONS_ON_GOOGLE PLATFORMS) ->
  responseMessages_ this = [] ->
  send_ this (Rich r) =
    sendResponse_ (agent_of (client this)) (set_responseMessages_ [r] this).
Proof.
  intros Hin Hsrc Hmsgs. pass_platform_check Hsrc Hin.
  rewrite Hmsgs, andb_false_r. simpl.
  assert (add this (Rich r) = Normal (set_responseMessages_ [r] this)) as ->; [|done].
  unfold add, existingSuggestion_. rewrite Hmsgs. by destruct r.
Qed.

(** X18. A client that the constructor returns has version 1 with the v1
    adapter or version 2 with the v2 adapter, holds the two handles it was
    given, and starts with an empty accumulator, no outgoing context and no
    followup event. *)
Theorem constructor_invariant (options : Options) (this : WebhookClient) :
  constructor options = Normal this ->
  (agentVersion this = 1 /\ client this = V1 \/ agentVersion this = 2 /\ client this = V2)
  /\ request options = Some (request_ this)
  /\ response options = Some (response_ this)
  /\ responseMessages_ this = []
  /\ outgoingContexts_ this = []
  /\ followupEvent_ this = JNull.
Proof.
  unfold constructor.
  destruct (request options) as [req|]; [|done].
  destruct (response options) as [res|]; [|done].
  destruct (get_prop (body req) "result") as [result|]; [|done]. simpl.
  destruct (truthy result); simpl.
  - intros [= <-]. simpl. split_and!; auto.
  - destruct (get_prop (body req) "queryResult") as [queryResult|]; [|done]. simpl.
    destruct (truthy queryResult); simpl; [|done].
    intros [= <-]. simpl. split_and!; auto.
Qed.

(** X19. How a request fails in [handleRequest]. An exception thrown by the
    handler comes out of [handleRequest] itself; a promise that the handler
    returns and that is rejected is passed on, and nothing is sent; and when
    the handler completes on a client whose platform of origin is not
    accepted, the error of [send_] comes out as a rejected promise. This
    holds for a handler given as a function and for one found in a map. *)
Theorem handleRequest_failures (this this' : WebhookClient) (f : requestCallback)
    (m : gmap (option string) requestCallback) (e : error) :
  m !! action this = Some f ->
  (f this = Throws e ->
   handleRequest this (HFunction f) = Throw e
   /\ handleRequest this (HMap m) = Throw e)
  /\ (f this = ReturnsPromise (Rejected e) this' ->
      handleRequest this (HFunction f) = Normal (Rejected e, this')
      /\ handleRequest this (HMap m) = Normal (Rejected e, this'))
  /\ (f this = Returns this' \/ f this = ReturnsPromise Resolved this' ->
      ~ source_accepted (requestSource this') ->
      handleRequest this (HFunction f) =
        Normal (Rejected (Error "Platform is not supported."), this')
      /\ handleRequest this (HMap m) =
         Normal (Rejected (Error "Platform is not supported."), this')).
Proof.
  intros Hm. unfold handleRequest. rewrite Hm. unfold call_handler.
  split_and!.
  - by intros ->.
  - by intros ->.
  - intros [-> | ->] Hno; unfold then_send; by rewrite (send_rejects _ _ Hno).
Qed.

(** X17. For a request that does not come from Actions on Google, giving
    [send_] a non-empty string or an element is the same as adding it and
    then sending: [send_(response)] does what [add(response)] followed by
    [send_()] does. *)
Theorem send_is_add_then_send (this : WebhookClient) (response : response_arg)
    (r : RichResponse) :
  source_accepted (requestSource this) ->
  strict_eq_str (requestSource this) (ACTIONS_ON_GOOGLE PLATFORMS) = false ->
  element_of response = Some r ->
  no_response response = false ->
  send_ this response = (this' <- add this response ;; send_ this' (Val JUndefined)).
Proof.
  intros Hsrc Hgoogle Hr Hsome.
  pose proof (add_result this response) as Hadd. rewrite Hr in Hadd.
  assert (exists l, add this response = Normal (set_responseMessages_ l this))
    as [l Hl].
  { destruct Hadd as [-> | (i & reply & _ & ->)]; eauto. }
  rewrite Hl. simpl. unfold send_ at 2. simpl.
  rewrite (send_accepts this Hsrc), Hgoogle. simpl.
  unfold send_. rewrite (send_accepts this Hsrc), Hgoogle, Hsome. simpl.
  destruct response as [v | r0 | items isArray]; [| by rewrite Hl | done].
  destruct v; try done. by rewrite Hl.
Qed.

End WebhookClient.

(** * The properties on examples *)

Lemma add_merges_suggestions_witness :
  suggestions_for sample_platforms (Some "SLACK")
    (responseMessages_
       (add_all sample_platforms (fresh_client 2 JNull None) slack_one_reply_each)) =
    [SuggestionsResponse (Some "SLACK") [JStr "yes"; JStr "no"]]
  /\ [JStr "yes"; JStr "no"] =
     concatenated_replies sample_platforms (Some "SLACK") slack_one_reply_each.
Proof.
  pose proof (add_merges_suggestions sample_platforms (fresh_client 2 JNull None)
                slack_one_reply_each (Some "SLACK") eq_refl) as H.
  vm_compute in H. destruct H as [H1 H2].
  split; [exact H1 | apply H2; repeat constructor].
Defined.

(** C1 as stated fails: the second element added carries two replies and only
    the first of them reaches the accumulated element. *)
Lemma add_merge_counterexample :
  suggestions_for sample_platforms (Some "SLACK")
    (responseMessages_
       (add_all sample_platforms (fresh_client 2 JNull None) slack_then_two_replies)) =
    [SuggestionsResponse (Some "SLACK") [JStr "yes"; JStr "no"]]
  /\ suggestions_for sample_platforms (Some "SLACK")
       (responseMessages_
          (add_all sample_platforms (fresh_client 2 JNull None) slack_then_two_replies)) <>
     [SuggestionsResponse (Some "SLACK")
        (concatenated_replies sample_platforms (Some "SLACK") slack_then_two_replies)].
Proof. split; [reflexivity | vm_compute; discriminate]. Qed.

Lemma clearContext_removes_witness :
  clearContext
    (set_outgoingContexts_ (map context_object sample_contexts) (fresh_client 2 JNull None))
    "foo" =
    Normal (set_outgoingContexts_
              (map context_object
                 [ {| name := "foobar"; lifespan := JNum 1; ctx_parameters := JObj [] |} ])
              (fresh_client 2 JNull None))
  /\
  clearContext
    (set_outgoingContexts_ (map context_object sample_contexts) (fresh_client 1 JNull None))
    "foo" =
    Normal (set_outgoingContexts_
              (map context_object
                 [ {| name := "projects/p/agent/sessions/s/contexts/foo";
                      lifespan := JNum 2; ctx_parameters := JObj [] |};
                   {| name := "foobar"; lifespan := JNum 1; ctx_parameters := JObj [] |} ])
              (fresh_client 1 JNull None)).
Proof.
  split.
  - apply (proj2 (clearContext_removes
                    (set_outgoingContexts_ (map context_object sample_contexts)
                       (fresh_client 2 JNull None))
                    sample_contexts "foo" eq_refl));
      [reflexivity | discriminate].
  - apply (proj1 (clearContext_removes
                    (set_outgoingContexts_ (map context_object sample_contexts)
                       (fresh_client 1 JNull None))
                    sample_contexts "foo" eq_refl)).
    reflexivity.
Defined.

(** C2 as stated fails for the empty name: every name ends with it, and under
    protocol v2 only the contexts whose name is empty are removed. *)
Lemma clearContext_counterexample :
  Forall (fun c => ends_with (name c) "") sample_contexts
  /\ clearContext
       (set_outgoingContexts_ (map context_object sample_contexts) (fresh_client 2 JNull None))
       "" =
     Normal (set_outgoingContexts_ (map context_object sample_contexts)
               (fresh_client 2 JNull None))
  /\ clearContext
       (set_outgoingContexts_ (map context_object sample_contexts) (fresh_client 2 JNull None))
       "" <>
     Normal (set_outgoingContexts_
               (map context_object
                  (filter (fun c => ~ ends_with (name c) "") sample_contexts))
               (fresh_client 2 JNull None)).
Proof.
  split_and!.
  - repeat constructor; unfold ends_with; simpl; apply suffix_nil.
  - reflexivity.
  - vm_compute. discriminate.
Qed.

Lemma send_leading_text_witness :
  send_ sample_platforms sample_supported storing_agent storing_agent
    (set_responseMessages_ [ImageResponse "https://example.com/cat.png"]
       (fresh_client 2 (JStr "ACTIONS_ON_GOOGLE") None))
    (Val JUndefined) =
    Normal (set_responseMessages_
              [TextResponse " "; ImageResponse "https://example.com/cat.png"]
              (fresh_client 2 (JStr "ACTIONS_ON_GOOGLE") None))
  /\
  send_ sample_platforms sample_supported storing_agent storing_agent
    (set_responseMessages_ [TextResponse "Hello"; ImageResponse "https://example.com/cat.png"]
       (fresh_client 2 (JStr "ACTIONS_ON_GOOGLE") None))
    (Val JUndefined) =
    Normal (set_responseMessages_
              [TextResponse "Hello"; ImageResponse "https://example.com/cat.png"]
              (fresh_client 2 (JStr "ACTIONS_ON_GOOGLE") None)).
Proof.
  split.
  - apply (proj1 (send_leading_text sample_platforms sample_supported
                    storing_agent storing_agent
                    (set_responseMessages_ [ImageResponse "https://example.com/cat.png"]
                       (fresh_client 2 (JStr "ACTIONS_ON_GOOGLE") None))
                    (ImageResponse "https://example.com/cat.png") []
                    ltac:(simpl; tauto) eq_refl eq_refl eq_refl)).
    reflexivity.
  - apply (proj2 (send_leading_text sample_platforms sample_supported
                    storing_agent storing_agent
                    (set_responseMessages_
                       [TextResponse "Hello"; ImageResponse "https://example.com/cat.png"]
                       (fresh_client 2 (JStr "ACTIONS_ON_GOOGLE") None))
                    (TextResponse "Hello") [ImageResponse "https://example.com/cat.png"]
                    ltac:(simpl; tauto) eq_refl eq_refl eq_refl)).
    reflexivity.
Defined.

Lemma send_empty_sequence_witness :
  send_ sample_platforms sample_supported storing_agent storing_agent
    (fresh_client 2 (JStr "ACTIONS_ON_GOOGLE") None) (Val JUndefined) =
    Normal (fresh_client 2 (JStr "ACTIONS_ON_GOOGLE") None)
  /\ responseMessages_ (fresh_client 2 (JStr "ACTIONS_ON_GOOGLE") None) = [].
Proof.
  apply (send_empty_sequence sample_platforms sample_supported storing_agent storing_agent
           (fresh_client 2 (JStr "ACTIONS_ON_GOOGLE") None)
           ltac:(simpl; tauto) eq_refl eq_refl).
Defined.

(** C5 on an input: the array [["Hello"]] given to [send_] leaves the
    accumulator empty, and the adapter sends nothing of it. *)
Lemma send_array_example :
  send_ sample_platforms sample_supported storing_agent storing_agent
    (fresh_client 2 JNull None) (Arr [Val (JStr "Hello")] JUndefined) =
    Normal (fresh_client 2 JNull None)
  /\ forEach (add sample_platforms) [Val (JStr "Hello")] (fresh_client 2 JNull None) =
     Normal (set_responseMessages_ [TextResponse "Hello"] (fresh_client 2 JNull None)).
Proof. split; reflexivity. Qed.

Lemma handleRequest_no_handler_witness :
  exists this',
    handleRequest sample_platforms sample_supported storing_agent storing_agent
      (fresh_client 2 JNull (Some "order")) (HMap ∅) =
      Normal (Rejected (Error "No handler for requested action"), this')
    /\ this' =
       set_response_
         (status (JStr "No handler for requested action")
            (status (JNum RESPONSE_CODE_BAD_REQUEST)
               (response_ (fresh_client 2 JNull (Some "order")))))
         (fresh_client 2 JNull (Some "order"))
    /\ statusCode (response_ this') = JStr "No handler for requested action"
    /\ statusCode (response_ this') <> JNum RESPONSE_CODE_BAD_REQUEST.
Proof.
  apply (handleRequest_no_handler sample_platforms sample_supported
           storing_agent storing_agent (fresh_client 2 JNull (Some "order")) ∅);
    reflexivity.
Defined.

Lemma constructor_version_witness :
  constructor storing_agent storing_agent {| request := None; response := None |} =
    Throw (Error "Request can NOT be empty.")
  /\ constructor storing_agent storing_agent
       {| request := Some {| body := v1_payload |}; response := None |} =
     Throw (Error "Response can NOT be empty.")
  /\ (exists this, constructor storing_agent storing_agent (handles v1_payload) = Normal this
                   /\ agentVersion this = 1 /\ client this = V1)
  /\ (exists this, constructor storing_agent storing_agent (handles v2_payload) = Normal this
                   /\ agentVersion this = 2 /\ client this = V2)
  /\ constructor storing_agent storing_agent (handles (JObj [])) =
     Throw (Error "Invalid or unknown request type (not a Dialogflow v1 or v2 webhook request).").
Proof.
  split_and!.
  - apply (proj1 (constructor_version storing_agent storing_agent
                    {| request := None; response := None |})).
    reflexivity.
  - apply (proj1 (proj2 (constructor_version storing_agent storing_agent
                           {| request := Some {| body := v1_payload |}; response := None |})));
      [by eexists | reflexivity].
  - apply (proj1 (proj2 (proj2 (constructor_version storing_agent storing_agent
                                  (handles v1_payload)))
                    _ _ _ _ eq_refl eq_refl eq_refl eq_refl)).
    reflexivity.
  - apply (proj1 (proj2 (proj2 (proj2 (constructor_version storing_agent storing_agent
                                         (handles v2_payload)))
                           _ _ _ _ eq_refl eq_refl eq_refl eq_refl)));
      reflexivity.
  - apply (proj2 (proj2 (proj2 (proj2 (constructor_version storing_agent storing_agent
                                         (handles (JObj []))))
                           _ _ _ _ eq_refl eq_refl eq_refl eq_refl)));
      reflexivity.
Defined.

(** C6 as stated fails: a payload with a [queryResult] field that also has a
    [result] field yields version 1, not version 2. *)
Lemma constructor_counterexample :
  has_field "queryResult" both_payload
  /\ (exists this, constructor storing_agent storing_agent (handles both_payload) = Normal this
                   /\ agentVersion this = 1)
  /\ ~ (exists this, constructor storing_agent storing_agent (handles both_payload) = Normal this
                     /\ agentVersion this = 2).
Proof.
  split_and!.
  - simpl. tauto.
  - eexists. split; reflexivity.
  - intros (this & H & Hv). vm_compute in H. injection H as <-. discriminate Hv.
Qed.

Lemma constructor_v1_precedence_witness :
  exists this,
    constructor storing_agent storing_agent (handles both_payload) = Normal this
    /\ agentVersion this = 1 /\ client this = V1.
Proof.
  apply (proj1 (constructor_v1_precedence storing_agent storing_agent
                  {| body := both_payload |} {| statusCode := JUndefined |}
                  _ eq_refl)).
  reflexivity.
Defined.

(** C8 as stated fails: a payload that has both fields, with [null] under
    [result], yields version 2. *)
Lemma constructor_precedence_counterexample :
  has_field "result" null_result_payload
  /\ has_field "queryResult" null_result_payload
  /\ (exists this,
        constructor storing_agent storing_agent (handles null_result_payload) = Normal this
        /\ agentVersion this = 2)
  /\ ~ (exists this,
          constructor storing_agent storing_agent (handles null_result_payload) = Normal this
          /\ agentVersion this = 1).
Proof.
  split_and!.
  - simpl. tauto.
  - simpl. tauto.
  - eexists. split; reflexivity.
  - intros (this & H & Hv). vm_compute in H. injection H as <-. discriminate Hv.
Qed.

(** C7 on an input: with an adapter that stores a context as it is given,
    [setContext(null)] succeeds and [null] is added to the outgoing set. *)
Lemma setContext_null_example :
  setContext storing_agent storing_agent (fresh_client 1 JNull None) JNull =
    Normal (set_outgoingContexts_ [JNull] (fresh_client 1 JNull None)).
Proof. reflexivity. Qed.

Lemma setFollowupEvent_validation_witness :
  setFollowupEvent storing_agent storing_agent (fresh_client 2 JNull None) (JStr "") =
    Normal (set_followupEvent_ (JObj [("name", JStr "")]) (fresh_client 2 JNull None))
  /\ setFollowupEvent storing_agent storing_agent (fresh_client 2 JNull None)
       (JObj [("parameters", JObj [])]) =
     Throw (Error "Followup event must be a string or have a name string").
Proof.
  pose proof (setFollowupEvent_validation storing_agent storing_agent
                (fresh_client 2 JNull None)
                ltac:(intros event this; exists event; split; reflexivity))
    as (H1 & _ & H3).
  split; [exact H1 | apply H3; left; reflexivity].
Defined.

(** * The further properties on examples *)

Lemma add_keeps_at_most_one_witness :
  at_most_one sample_platforms
    (responseMessages_
       (add_all sample_platforms (fresh_client 2 JNull None) mixed_calls)).
Proof.
  apply (add_keeps_at_most_one sample_platforms (fresh_client 2 JNull None) mixed_calls).
  intros p. simpl. lia.
Defined.

Lemma lookup_unspecified_witness :
  existingSuggestion_ sample_platforms
    (set_responseMessages_ unspecified_suggestions (fresh_client 2 JNull None)) None =
  existingSuggestion_ sample_platforms
    (set_responseMessages_ unspecified_suggestions (fresh_client 2 JNull None))
    (Some "PLATFORM_UNSPECIFIED")
  /\ existingPayload_ sample_platforms
       (set_responseMessages_ unspecified_suggestions (fresh_client 2 JNull None)) None =
     existingPayload_ sample_platforms
       (set_responseMessages_ unspecified_suggestions (fresh_client 2 JNull None))
       (Some "PLATFORM_UNSPECIFIED").
Proof.
  apply (lookup_unspecified sample_platforms
           (set_responseMessages_ unspecified_suggestions (fresh_client 2 JNull None))
           None (Some "PLATFORM_UNSPECIFIED")); reflexivity.
Defined.

Lemma forEach_add_witness :
  forEach (add sample_platforms) slack_one_reply_each (fresh_client 2 JNull None) =
    Normal (add_all sample_platforms (fresh_client 2 JNull None) slack_one_reply_each)
  /\ forEach (add sample_platforms) mixed_calls (fresh_client 2 JNull None) =
     Throw (Error "unknown response type").
Proof.
  split.
  - apply (proj1 (forEach_add sample_platforms (fresh_client 2 JNull None)
                    slack_one_reply_each)).
    repeat constructor; by eexists.
  - apply (proj2 (forEach_add sample_platforms (fresh_client 2 JNull None) mixed_calls)
             (firstn 3 mixed_calls) (Val (JNum 7)) (skipn 4 mixed_calls));
      [reflexivity | repeat constructor; by eexists | reflexivity].
Defined.

Lemma clearContext_idempotent_witness :
  exists this',
    clearContext
      (set_outgoingContexts_ (map context_object sample_contexts) (fresh_client 2 JNull None))
      "foo" = Normal this'
    /\ clearContext this' "foo" = Normal this'.
Proof.
  apply (clearContext_idempotent
           (set_outgoingContexts_ (map context_object sample_contexts)
              (fresh_client 2 JNull None))
           sample_contexts "foo").
  reflexivity.
Defined.

Lemma clearContext_null_entry_witness :
  clearContext
    (set_outgoingContexts_ (map context_object sample_contexts ++ [JNull])
       (fresh_client 1 JNull None))
    "foo" = Throw TypeError.
Proof.
  apply (clearContext_null_entry
           (set_outgoingContexts_ (map context_object sample_contexts ++ [JNull])
              (fresh_client 1 JNull None))
           sample_contexts JNull [] "foo");
    [by left | by left | reflexivity].
Defined.

Lemma setContext_then_clearContext_witness :
  (exists this',
     setContext storing_agent storing_agent
       (set_outgoingContexts_ (map context_object sample_contexts) (fresh_client 1 JNull None))
       (JStr "foobar") = Normal this'
     /\ clearContext this' "foobar" =
        Normal (set_outgoingContexts_
                  (map context_object (filter (fun c => name c <> "foobar") sample_contexts))
                  (set_outgoingContexts_ (map context_object sample_contexts)
                     (fresh_client 1 JNull None))))
  /\
  (exists this',
     setContext storing_agent qualifying_agent
       (set_outgoingContexts_ (map context_object sample_contexts) (fresh_client 2 JNull None))
       (JStr "foo") = Normal this'
     /\ clearContext this' "foo" =
        Normal (set_outgoingContexts_
                  (map context_object
                     (filter (fun c => ~ ends_with (name c) "foo") sample_contexts))
                  (set_outgoingContexts_ (map context_object sample_contexts)
                     (fresh_client 2 JNull None)))).
Proof.
  split.
  - apply (proj1 (setContext_then_clearContext storing_agent storing_agent
                    (set_outgoingContexts_ (map context_object sample_contexts)
                       (fresh_client 1 JNull None))
                    sample_contexts "foobar" (fun s => s)
                    ltac:(intros s this; reflexivity) eq_refl ltac:(discriminate)));
      reflexivity.
  - apply (proj2 (setContext_then_clearContext storing_agent qualifying_agent
                    (set_outgoingContexts_ (map context_object sample_contexts)
                       (fresh_client 2 JNull None))
                    sample_contexts "foo" (String.append session_path)
                    ltac:(intros s this; reflexivity) eq_refl ltac:(discriminate)));
      [reflexivity | by exists (list_ascii_of_string session_path)].
Defined.

Lemma getContext_first_match_witness :
  getContext client_with_input_contexts "foobar" =
    Normal (context_object
              {| name := "foobar"; lifespan := JNum 1; ctx_parameters := JObj [] |})
  /\ getContext client_with_input_contexts "weather" = Normal JNull.
Proof.
  split.
  - apply (proj1 (getContext_first_match client_with_input_contexts sample_contexts
                    "foobar" eq_refl)
             (firstn 1 sample_contexts) _ (skipn 2 sample_contexts));
      [reflexivity | reflexivity | repeat constructor; discriminate].
  - apply (proj2 (getContext_first_match client_with_input_contexts sample_contexts
                    "weather" eq_refl)).
    repeat constructor; discriminate.
Defined.

Lemma send_platform_check_witness :
  send_ sample_platforms sample_supported storing_agent storing_agent
    (fresh_client 2 (JStr "ALEXA") None) (Val (JStr "Hello")) =
    Throw (Error "Platform is not supported.")
  /\ send_ sample_platforms sample_supported storing_agent storing_agent
       (fresh_client 2 JNull None) (Val JUndefined) =
     Normal (fresh_client 2 JNull None).
Proof.
  split.
  - apply (proj1 (send_platform_check sample_platforms sample_supported
                    storing_agent storing_agent (fresh_client 2 (JStr "ALEXA") None))).
    intros [H | [H | [H | (s & H & Hin)]]]; try discriminate H.
    injection H as <-. simpl in Hin. intuition discriminate.
  - apply (proj2 (send_platform_check sample_platforms sample_supported
                    storing_agent storing_agent (fresh_client 2 JNull None))).
    by right.
Defined.

Lemma send_adds_after_injection_witness :
  send_ sample_platforms sample_supported storing_agent storing_agent
    (fresh_client 2 (JStr "ACTIONS_ON_GOOGLE") None)
    (Rich (ImageResponse "https://example.com/cat.png")) =
    Normal (set_responseMessages_ [ImageResponse "https://example.com/cat.png"]
              (fresh_client 2 (JStr "ACTIONS_ON_GOOGLE") None)).
Proof.
  apply (send_adds_after_injection sample_platforms sample_supported
           storing_agent storing_agent (fresh_client 2 (JStr "ACTIONS_ON_GOOGLE") None)
           (ImageResponse "https://example.com/cat.png")
           ltac:(simpl; tauto) eq_refl eq_refl).
Defined.

Lemma send_is_add_then_send_witness :
  send_ sample_platforms sample_supported storing_agent storing_agent
    (fresh_client 2 (JStr "SLACK") None) (Val (JStr "Hello")) =
    (this' <- add sample_platforms (fresh_client 2 (JStr "SLACK") None) (Val (JStr "Hello")) ;;
     send_ sample_platforms sample_supported storing_agent storing_agent this'
       (Val JUndefined)).
Proof.
  apply (send_is_add_then_send sample_platforms sample_supported
           storing_agent storing_agent (fresh_client 2 (JStr "SLACK") None)
           (Val (JStr "Hello")) (TextResponse "Hello"));
    [ right; right; right; exists "SLACK"; split; [reflexivity | simpl; tauto]
    | reflexivity | reflexivity | reflexivity ].
Defined.

Lemma constructor_invariant_witness :
  exists this,
    constructor storing_agent storing_agent (handles v2_payload) = Normal this
    /\ (agentVersion this = 1 /\ client this = V1
        \/ agentVersion this = 2 /\ client this = V2)
    /\ request (handles v2_payload) = Some (request_ this)
    /\ response (handles v2_payload) = Some (response_ this)
    /\ responseMessages_ this = []
    /\ outgoingContexts_ this = []
    /\ followupEvent_ this = JNull.
Proof.
  eexists. split; [reflexivity|].
  apply (constructor_invariant storing_agent storing_agent (handles v2_payload)).
  reflexivity.
Defined.

Lemma handleRequest_failures_witness :
  handleRequest sample_platforms sample_supported storing_agent storing_agent
    (fresh_client 2 JNull (Some "order")) (HMap (order_map throwing_handler)) =
    Throw (Error "boom")
  /\ handleRequest sample_platforms sample_supported storing_agent storing_agent
       (fresh_client 2 JNull (Some "order")) (HMap (order_map rejecting_handler)) =
     Normal (Rejected (Error "boom"),
             set_responseMessages_ [TextResponse "Hello"] (fresh_client 2 JNull (Some "order")))
  /\ handleRequest sample_platforms sample_supported storing_agent storing_agent
       (fresh_client 2 (JStr "ALEXA") (Some "order"))
       (HMap (order_map greeting_handler)) =
     Normal (Rejected (Error "Platform is not supported."),
             set_responseMessages_ [TextResponse "Hello"]
               (fresh_client 2 (JStr "ALEXA") (Some "order"))).
Proof.
  split_and!.
  - apply (proj1 (handleRequest_failures sample_platforms sample_supported
                    storing_agent storing_agent
                    (fresh_client 2 JNull (Some "order")) (fresh_client 2 JNull None)
                    throwing_handler (order_map throwing_handler)
                    (Error "boom") ltac:(vm_compute; reflexivity))).
    reflexivity.
  - apply (proj1 (proj2 (handleRequest_failures sample_platforms sample_supported
                           storing_agent storing_agent
                           (fresh_client 2 JNull (Some "order")) _
                           rejecting_handler (order_map rejecting_handler)
                           (Error "boom") ltac:(vm_compute; reflexivity)))).
    reflexivity.
  - apply (proj2 (proj2 (handleRequest_failures sample_platforms sample_supported
                           storing_agent storing_agent
                           (fresh_client 2 (JStr "ALEXA") (Some "order")) _
                           greeting_handler (order_map greeting_handler)
                           (Error "boom") ltac:(vm_compute; reflexivity)))).
    + by left.
    + intros [H | [H | [H | (s & H & Hin)]]]; try discriminate H.
      injection H as <-. simpl in Hin. intuition discriminate.
Defined.
